(** * netbox_fix_json: the unwrapper and the repair workflow

    A shallow embedding of [src/netbox_fix_json.py] and the properties of
    its two functions, [unwrap_actual_json] and [fix_netbox_json_field].

    What is embedded, and how:
    - Python values that a NetBox custom field can hold (the result of
      decoding a JSON document) are the inductive type [value];
      [isinstance] is a function on the run-time type of a value.
    - [json.loads] belongs to the Python library.  Its behaviour on text is
      a parameter [json_loads] of the development (a section variable): for
      each text the value it returns or the exception it raises, which is
      [JSONDecodeError] for a text that is no JSON document and can be
      another one ([ValueError], [RecursionError]), which the program does
      not catch.  Every theorem holds for whatever the decoder does.  Its
      behaviour on an argument that is no text at all (it raises
      [TypeError]) is part of the embedding.  [JsonText.loads] is a
      concrete decoder used to run the definitions on examples.
    - Exceptions and observable calls are explicit: a computation yields the
      list of calls it made ([event]: a call of [json.loads], a call of
      [Record.update]) and either a result or the exception that escaped.
    - The remote store is the other collaborator: whether it accepts a
      write is a parameter [store_accepts].
    - The [logging] calls and the counter [count_evaluated], which only
      feeds a log line, have no influence on results and are left out. *)

From Stdlib Require Import Ascii.
From stdpp Require Import base gmap list strings pretty.

Local Open Scope Z_scope.

(** ** Python values *)

(** A number keeps the integer it denotes, or the literal of a float: the
    program never computes with numbers. *)
Inductive number :=
| NInt (z : Z)
| NFloat (literal : string).

#[warnings="-register-all"]
Inductive value :=
| VNone
| VBool (b : bool)
| VNum (n : number)
| VStr (s : string)
| VList (items : list value)
| VDict (d : gmap string value).

(** Run-time types, as [type(v)] reports them. *)
Inductive pytype := TNoneType | TBool | TInt | TFloat | TStr | TList | TDict.

Definition type_of (v : value) : pytype :=
  match v with
  | VNone => TNoneType
  | VBool _ => TBool
  | VNum (NInt _) => TInt
  | VNum (NFloat _) => TFloat
  | VStr _ => TStr
  | VList _ => TList
  | VDict _ => TDict
  end.

(** [issubclass]: every type is a subclass of itself, and [bool] of [int]. *)
Definition issubclass (t u : pytype) : bool :=
  match t, u with
  | TNoneType, TNoneType | TBool, TBool | TInt, TInt | TFloat, TFloat
  | TStr, TStr | TList, TList | TDict, TDict => true
  | TBool, TInt => true
  | _, _ => false
  end.

(** [isinstance(v, types)] for a tuple of types; a single type is the
    one-element tuple. *)
Definition isinstance (v : value) (types : list pytype) : bool :=
  existsb (issubclass (type_of v)) types.

(** The default of [expected_types]: [(list, dict, type(None))]. *)
Definition default_expected_types : list pytype := [TList; TDict; TNoneType].

(** ** Computations: calls made, and a result or an exception *)

(** The exceptions of the program's calls.  [json.loads] raises
    [JSONDecodeError] on a text that is no JSON document, [TypeError] on an
    argument that is no text, [ValueError] on an integer literal of more
    digits than the interpreter converts, and [RecursionError] on a nesting
    too deep; [Record.update] raises [RequestError].  Any other exception
    is known by the name of its class. *)
Inductive exn :=
| TypeError
| JSONDecodeError
| RequestError
| ValueError
| RecursionError
| OtherException (class : string).

Inductive outcome (A : Type) :=
| Returns (a : A)
| Raises (e : exn).
Arguments Returns {A} a.
Arguments Raises {A} e.

(** A NetBox object: its identity in the store and the custom fields as
    they were fetched. *)
Record NbObj := mkNbObj {
  obj_id : nat;
  custom_fields : gmap string value
}.

Inductive event :=
| Loads (data : value)
| Update (nbobj : NbObj) (field : string) (v : value) (accepted : bool).

Definition py (A : Type) : Type := list event * outcome A.

Definition py_ret {A} (a : A) : py A := ([], Returns a).

Definition py_bind {A B} (m : py A) (k : A → py B) : py B :=
  match m with
  | (t, Returns a) => let '(t', o) := k a in (t ++ t', o)
  | (t, Raises e) => (t, Raises e)
  end.

Definition py_raise {A} (e : exn) : py A := ([], Raises e).

Definition emit (ev : event) : py unit := ([ev], Returns tt).

(** [try: m except e: handler] *)
Definition try_except {A} (m : py A) (e : exn → bool) (handler : py A) : py A :=
  match m with
  | (t, Raises x) => if e x then let '(t', o) := handler in (t ++ t', o)
                     else (t, Raises x)
  | done => done
  end.

Notation "x <- m ;; k" := (py_bind m (fun x => k))
  (at level 100, m at next level, right associativity, only parsing).
Notation "m ;;; k" := (py_bind m (fun _ => k))
  (at level 100, right associativity, only parsing).

Definition trace {A} (m : py A) : list event := fst m.
Definition result {A} (m : py A) : outcome A := snd m.

Definition is_Loads (ev : event) : bool :=
  match ev with Loads _ => true | _ => false end.
Definition is_Update (ev : event) : bool :=
  match ev with Update _ _ _ _ => true | _ => false end.

(** The decodes attempted and the writes attempted by a computation. *)
Definition decodes {A} (m : py A) : list event := filter is_Loads (trace m).
Definition writes {A} (m : py A) : list event := filter is_Update (trace m).

Definition is_JSONDecodeError (e : exn) : bool :=
  match e with JSONDecodeError => true | _ => false end.
Definition is_RequestError (e : exn) : bool :=
  match e with RequestError => true | _ => false end.

(** ** A JSON text decoder to run examples with *)

(** [JsonText.loads] follows [json.loads] on ASCII texts whose strings have
    no [\u] escape and whose nesting stays below the recursion limit of
    the interpreter: the grammar of RFC 8259 with the constants [NaN],
    [Infinity] and [-Infinity] that Python accepts as well, control
    characters refused inside strings, the last of two equal keys of an
    object kept, and [ValueError] for an integer literal of more than 4300
    digits (the default limit of Python 3.11 and later), raised where the
    literal is read.  No theorem depends on it; the examples, witnesses and
    counterexamples run on it. *)
Module JsonText.
Local Open Scope string_scope.
Local Open Scope char_scope.

Definition is_ws (c : ascii) : bool :=
  match c with
  | " " | "009" | "010" | "013" => true
  | _ => false
  end.

Definition is_digit (c : ascii) : bool :=
  (48 <=? nat_of_ascii c)%nat && (nat_of_ascii c <=? 57)%nat.

Fixpoint skip_ws (s : string) : string :=
  match s with
  | String c r => if is_ws c then skip_ws r else s
  | EmptyString => s
  end.

Fixpoint strip_prefix (p s : string) : option string :=
  match p, s with
  | EmptyString, _ => Some s
  | String a p', String b s' => if Ascii.eqb a b then strip_prefix p' s' else None
  | _, _ => None
  end.

(** The escapes of a JSON string other than [\u]. *)
Definition unescape (c : ascii) : option ascii :=
  match c with
  | "034" => Some "034"
  | "092" => Some "092"
  | "/" => Some "/"
  | "b" => Some "008"
  | "f" => Some "012"
  | "n" => Some "010"
  | "r" => Some "013"
  | "t" => Some "009"
  | _ => None
  end.

(** The body of a string literal, after its opening quote: the decoded
    text and what follows the closing quote. *)
Fixpoint scan_string (s : string) : option (string * string) :=
  match s with
  | EmptyString => None
  | String c r =>
      if Ascii.eqb c "034" then Some (EmptyString, r)
      else if Ascii.eqb c "092" then
        match r with
        | String e r' =>
            match unescape e, scan_string r' with
            | Some ch, Some (body, rest) => Some (String ch body, rest)
            | _, _ => None
            end
        | EmptyString => None
        end
      else if (nat_of_ascii c <? 32)%nat then None
      else match scan_string r with
           | Some (body, rest) => Some (String c body, rest)
           | None => None
           end
  end.

(** A run of digits: their value, their count, and the rest. *)
Fixpoint scan_digits (acc : Z) (n : nat) (s : string) : Z * nat * string :=
  match s with
  | String c r =>
      if is_digit c
      then scan_digits (10 * acc + Z.of_nat (nat_of_ascii c - 48)) (S n) r
      else (acc, n, s)
  | EmptyString => (acc, n, s)
  end.

(** The integer part: [0], or digits that do not start with [0]; with the
    number of its digits. *)
Definition scan_int (s : string) : option (Z * nat * string) :=
  match s with
  | String "0" r => Some (0, 1%nat, r)
  | _ => match scan_digits 0 0 s with
         | (_, O, _) => None
         | found => Some found
         end
  end.

(** An optional fraction and an optional exponent; [true] when either
    is there. *)
Definition scan_frac_exp (s : string) : bool * string :=
  let '(frac, s1) :=
    match s with
    | String "." r =>
        match scan_digits 0 0 r with
        | (_, O, _) => (false, s)
        | (_, _, r') => (true, r')
        end
    | _ => (false, s)
    end in
  let after_sign (r : string) :=
    match r with
    | String "+" r' | String "-" r' => r'
    | _ => r
    end in
  match s1 with
  | String "e" r | String "E" r =>
      match scan_digits 0 0 (after_sign r) with
      | (_, O, _) => (frac, s1)
      | (_, _, r') => (true, r')
      end
  | _ => (frac, s1)
  end.

Definition consumed (s rest : string) : string :=
  String.substring 0 (String.length s - String.length rest) s.

(** What a scan finds at the head of a text: something and the rest of the
    text, or the exception that ends the decoding. *)
Inductive scanned (A : Type) :=
| Scanned (a : A) (rest : string)
| Failed (e : exn).
Arguments Scanned {A} a rest.
Arguments Failed {A} e.

(** The most digits of an integer literal that [int] converts. *)
Definition max_str_digits : nat := 4300.

Definition scan_number (s : string) : scanned value :=
  let '(neg, body) :=
    match s with
    | String "-" r => (true, r)
    | _ => (false, s)
    end in
  match scan_int body with
  | None => Failed JSONDecodeError
  | Some (z, digits, r) =>
      match scan_frac_exp r with
      | (true, r') => Scanned (VNum (NFloat (consumed s r'))) r'
      | (false, _) =>
          if (max_str_digits <? digits)%nat then Failed ValueError
          else Scanned (VNum (NInt (if neg then - z else z))) r
      end
  end.

Definition scan_constant (s : string) : option (value * string) :=
  match strip_prefix "null" s with Some r => Some (VNone, r) | None =>
  match strip_prefix "true" s with Some r => Some (VBool true, r) | None =>
  match strip_prefix "false" s with Some r => Some (VBool false, r) | None =>
  match strip_prefix "NaN" s with Some r => Some (VNum (NFloat "NaN"), r) | None =>
  match strip_prefix "Infinity" s with
  | Some r => Some (VNum (NFloat "Infinity"), r) | None =>
  match strip_prefix "-Infinity" s with
  | Some r => Some (VNum (NFloat "-Infinity"), r) | None => None
  end end end end end end.

(** One value at the head of [s].  The recursion is bounded by [fuel];
    [loads] gives it more than the text can use. *)
Fixpoint scan_value (fuel : nat) (s : string) : scanned value :=
  match fuel with
  | O => Failed JSONDecodeError
  | S fuel' =>
      match s with
      | String "034" r =>
          match scan_string r with
          | Some (body, rest) => Scanned (VStr body) rest
          | None => Failed JSONDecodeError
          end
      | String "[" r =>
          match skip_ws r with
          | String "]" rest => Scanned (VList []) rest
          | r' =>
              match scan_items fuel' r' with
              | Scanned items rest => Scanned (VList items) rest
              | Failed e => Failed e
              end
          end
      | String "{" r =>
          match skip_ws r with
          | String "}" rest => Scanned (VDict ∅) rest
          | r' =>
              match scan_members fuel' ∅ r' with
              | Scanned d rest => Scanned (VDict d) rest
              | Failed e => Failed e
              end
          end
      | _ =>
          match scan_constant s with
          | Some (v, rest) => Scanned v rest
          | None => scan_number s
          end
      end
  end
with scan_items (fuel : nat) (s : string) : scanned (list value) :=
  match fuel with
  | O => Failed JSONDecodeError
  | S fuel' =>
      match scan_value fuel' s with
      | Failed e => Failed e
      | Scanned v r =>
          match skip_ws r with
          | String "," r' =>
              match scan_items fuel' (skip_ws r') with
              | Scanned items rest => Scanned (v :: items) rest
              | Failed e => Failed e
              end
          | String "]" rest => Scanned [v] rest
          | _ => Failed JSONDecodeError
          end
      end
  end
with scan_members (fuel : nat) (d : gmap string value) (s : string)
    : scanned (gmap string value) :=
  match fuel with
  | O => Failed JSONDecodeError
  | S fuel' =>
      match s with
      | String "034" r =>
          match scan_string r with
          | None => Failed JSONDecodeError
          | Some (key, r1) =>
              match skip_ws r1 with
              | String ":" r2 =>
                  match scan_value fuel' (skip_ws r2) with
                  | Failed e => Failed e
                  | Scanned v r3 =>
                      match skip_ws r3 with
                      | String "," r4 =>
                          scan_members fuel' (<[key := v]> d) (skip_ws r4)
                      | String "}" rest => Scanned (<[key := v]> d) rest
                      | _ => Failed JSONDecodeError
                      end
                  end
              | _ => Failed JSONDecodeError
              end
          end
      | _ => Failed JSONDecodeError
      end
  end.

(** The whole text must be one value between optional white space. *)
Definition loads (s : string) : outcome value :=
  match scan_value (2 * String.length s + 2) (skip_ws s) with
  | Scanned v rest =>
      match skip_ws rest with
      | EmptyString => Returns v
      | _ => Raises JSONDecodeError
      end
  | Failed e => Raises e
  end.
End JsonText.

(** ** The unwrapper *)

Section Unwrapper.
(** What [json.loads] does with a text: the value it returns, or the
    exception it raises: [JSONDecodeError], or another one. *)
Variable json_loads : string → outcome value.

(** [json.loads(data)] for any argument: a text is decoded, with whatever
    that returns or raises; anything else is refused with [TypeError]
    before any decoding. *)
Definition json_loads_call (data : value) : py value :=
  emit (Loads data) ;;;
  match data with
  | VStr s => ([], json_loads s)
  | _ => py_raise TypeError
  end.

(** The test of line 26:
    [expected_type is not None and isinstance(data, expected_type)
     or expected_type is None and not isinstance(data, str)]. *)
Definition found_expected (expected_type : option (list pytype)) (data : value) : bool :=
  match expected_type with
  | Some types => isinstance data types
  | None => negb (isinstance data [TStr])
  end.

(** The [while iteration < max_iterations] loop, by the number of passes
    it has left: [iteration] starts at 0 and grows by one per pass, so
    there are [max_iterations] passes, none when that is not positive. *)
Fixpoint unwrap_loop (expected_type : option (list pytype)) (passes : nat)
    (data : value) : py (bool * value) :=
  match passes with
  | O => py_ret (false, VNone)
  | S passes' =>
      decoded <- try_except (d <- json_loads_call data ;; py_ret (Some d))
                   is_JSONDecodeError (py_ret None) ;;
      match decoded with
      | None => py_ret (false, VNone)
      | Some data' =>
          if found_expected expected_type data' then py_ret (true, data')
          else unwrap_loop expected_type passes' data'
      end
  end.

Definition unwrap_actual_json (input_str : value)
    (expected_type : option (list pytype)) (max_iterations : Z) : py (bool * value) :=
  unwrap_loop expected_type (Z.to_nat max_iterations) input_str.
End Unwrapper.

(** ** The repair workflow *)

Definition is_None (v : value) : bool :=
  match v with VNone => true | _ => false end.

(** [v] equals the empty string. *)
Definition is_empty_str (v : value) : bool :=
  match v with VStr EmptyString => true | _ => false end.

(** [nbobj.custom_fields.get(custom_field_name)]: [None] when the field is
    not there. *)
Definition get_custom_field (custom_field_name : string) (nbobj : NbObj) : value :=
  default VNone (custom_fields nbobj !! custom_field_name).

Section Repair.
Variable json_loads : string → outcome value.

(** Whether the store accepts the write of a value to a field of an
    object.  When it does not, [nbobj.update] raises
    [pynetbox.core.query.RequestError]. *)
Variable store_accepts : NbObj → string → value → bool.

Variable custom_field_name : string.
Variable max_iterations : Z.
Variable make_changes : bool.
Variable expected_types : list pytype.
Variable replace_empty_string_with_null : bool.

(** [nbobj.update({'custom_fields': {custom_field_name: fixed_value}})] *)
Definition nbobj_update (nbobj : NbObj) (fixed_value : value) : py unit :=
  let accepted := store_accepts nbobj custom_field_name fixed_value in
  emit (Update nbobj custom_field_name fixed_value accepted) ;;;
  if accepted then py_ret tt else py_raise RequestError.

(** The test of line 50, under which a record is skipped. *)
Definition well_typed (json_value : value) : bool :=
  is_None json_value || isinstance json_value expected_types.

(** The first loop (lines 47-54): the records that need repair, in the
    order of the record set. *)
Fixpoint collect_bad (recordset : list NbObj) (nbobj_with_bad_value : list NbObj)
    : list NbObj :=
  match recordset with
  | [] => nbobj_with_bad_value
  | nbobj :: rest =>
      let json_value := get_custom_field custom_field_name nbobj in
      if well_typed json_value then collect_bad rest nbobj_with_bad_value
      else collect_bad rest (nbobj_with_bad_value ++ [nbobj])
  end.

(** Lines 58-63: the status and the fixed value of one record. *)
Definition compute_fix (nbobj : NbObj) : py (bool * value) :=
  if is_empty_str (get_custom_field custom_field_name nbobj)
     && replace_empty_string_with_null
  then py_ret (true, VNone)
  else unwrap_actual_json json_loads (get_custom_field custom_field_name nbobj)
         None max_iterations.

(** The second loop (lines 56-77). *)
Fixpoint repair_loop (nbobj_with_bad_value : list NbObj)
    (nbobj_updated nbobj_not_updated : list NbObj) : py (list NbObj * list NbObj) :=
  match nbobj_with_bad_value with
  | [] => py_ret (nbobj_updated, nbobj_not_updated)
  | nbobj :: rest =>
      fixed <- compute_fix nbobj ;;
      let '(status, fixed_value) := fixed in
      if negb status then
        repair_loop rest nbobj_updated (nbobj_not_updated ++ [nbobj])
      else if make_changes then
        saved <- try_except (nbobj_update nbobj fixed_value ;;; py_ret true)
                   is_RequestError (py_ret false) ;;
        if saved then repair_loop rest (nbobj_updated ++ [nbobj]) nbobj_not_updated
        else repair_loop rest nbobj_updated (nbobj_not_updated ++ [nbobj])
      else
        repair_loop rest (nbobj_updated ++ [nbobj]) nbobj_not_updated
  end.

Definition fix_netbox_json_field (recordset : list NbObj)
    : py (list NbObj * list NbObj) :=
  let nbobj_with_bad_value := collect_bad recordset [] in
  repair_loop nbobj_with_bad_value [] [].
End Repair.

(** ** Vocabulary of the properties *)

Section Vocabulary.
Variable json_loads : string → outcome value.
Variable store_accepts : NbObj → string → value → bool.
Variable custom_field_name : string.
Variable max_iterations : Z.
Variable make_changes : bool.
Variable expected_types : list pytype.
Variable replace_empty_string_with_null : bool.

(** Each parse peels one layer: a text is encoded [N] times around [v]
    when [N] successive parses, and no fewer, lead from it to the value
    [v] that is not a string. *)
Inductive encoded : nat → string → value → Prop :=
| encoded_once s v :
    json_loads s = Returns v → isinstance v [TStr] = false → encoded 1 s v
| encoded_again N s s' v :
    json_loads s = Returns (VStr s') → encoded N s' v → encoded (S N) s v.

(** The candidates of a run: what the first loop hands to the second. *)
Definition candidates (recordset : list NbObj) : list NbObj :=
  collect_bad custom_field_name expected_types recordset [].

Definition needs_repair (nbobj : NbObj) : bool :=
  negb (well_typed expected_types (get_custom_field custom_field_name nbobj)).

(** What one pass of the second loop does with its record: the calls it
    makes and the bucket it chooses, [true] for [nbobj_updated] and [false]
    for [nbobj_not_updated]. *)
Definition placement (nbobj : NbObj) : py bool :=
  fixed <- compute_fix json_loads custom_field_name max_iterations
             replace_empty_string_with_null nbobj ;;
  let '(status, fixed_value) := fixed in
  if negb status then py_ret false
  else if make_changes then
    try_except (nbobj_update store_accepts custom_field_name nbobj fixed_value ;;;
                py_ret true)
      is_RequestError (py_ret false)
  else py_ret true.

Definition returns {A} (m : py A) : bool :=
  match result m with Returns _ => true | Raises _ => false end.

Definition placed_updated (nbobj : NbObj) : bool :=
  match result (placement nbobj) with Returns true => true | _ => false end.

Definition placed_not_updated (nbobj : NbObj) : bool :=
  match result (placement nbobj) with Returns false => true | _ => false end.

(** The calls of the passes over [cands], one after the other. *)
Definition calls_of (cands : list NbObj) : list event :=
  concat ((λ c, trace (placement c)) <$> cands).
End Vocabulary.

(** [l] is split into [l1] and [l2]: every position of [l] goes to exactly
    one of them, and both keep the order of [l]. *)
Inductive splits {A : Type} : list A → list A → list A → Prop :=
| splits_nil : splits [] [] []
| splits_left x l l1 l2 : splits l l1 l2 → splits (x :: l) (x :: l1) l2
| splits_right x l l1 l2 : splits l l1 l2 → splits (x :: l) l1 (x :: l2).

(** Modelled from the spec: the record store (pynetbox and the NetBox
    server, which are not part of the sources) persists an accepted update
    of a field on the object it was sent for and leaves the other fields
    and objects alone; a rejected update changes nothing. *)
Definition apply_write (nbobj : NbObj) (ev : event) : NbObj :=
  match ev with
  | Update target field v true =>
      if (obj_id target =? obj_id nbobj)%nat
      then mkNbObj (obj_id nbobj) (<[field := v]> (custom_fields nbobj))
      else nbobj
  | _ => nbobj
  end.

(** An object as the store holds it after the calls of a run, and the
    record set a later run fetches. *)
Definition refetch (calls : list event) (nbobj : NbObj) : NbObj :=
  foldl apply_write nbobj calls.

Definition persist (calls : list event) (recordset : list NbObj) : list NbObj :=
  refetch calls <$> recordset.

(** A call that leaves an object of the store as it is: a decode, or an
    update sent for another object. *)
Definition foreign_to (nbobj : NbObj) (ev : event) : Prop :=
  match ev with
  | Loads _ => True
  | Update target _ _ _ => obj_id target ≠ obj_id nbobj
  end.

(** ** The command line (lines 157-166) *)

(** The parsed arguments that reach the repair and the report.  The others
    ([--apitoken], [--url], [--module], [--type], [--cafile], [--debug])
    select the record set and the log level. *)
Record Args := mkArgs {
  args_field_name : string;
  args_verbose : bool;
  args_make_changes : bool;
  args_max_iterations : Z;
  args_replace_empty_string_with_null : bool
}.

(** What ends the script before its last line: an exception out of the
    repair, or the [NameError] of a name that is not bound. *)
Inductive uncaught :=
| RepairError (e : exn)
| NameError (name : string).

Inductive finished :=
| Done
| Uncaught (e : uncaught).

(** [sep.join(parts)] *)
Fixpoint join (sep : string) (parts : list string) : string :=
  match parts with
  | [] => EmptyString
  | [part] => part
  | part :: rest => part +:+ sep +:+ join sep rest
  end.

Definition newline_indent : string := String "010" "  ".

Section CommandLine.
Variable json_loads : string → outcome value.
Variable store_accepts : NbObj → string → value → bool.

(** [str(item)] for a NetBox object, which pynetbox defines. *)
Variable str : NbObj → string.

(** Line 161, [[str(item) for ite in objects_not_updated]]: the loop
    variable is [ite]; [item] is local to the comprehension of line 160 and
    bound nowhere else, so the first evaluation of [str(item)] raises
    [NameError].  Over an empty list the body is never evaluated. *)
Definition not_updated_strings (objects_not_updated : list NbObj)
    : list string + uncaught :=
  match objects_not_updated with
  | [] => inl []
  | ite :: _ => inr (NameError "item")
  end.

(** Lines 159-166: the lines printed, and how the script ends. *)
Definition report (verbose : bool) (objects_updated objects_not_updated : list NbObj)
    : list string * finished :=
  if verbose then
    let updated_flattened := join newline_indent (str <$> objects_updated) in
    match not_updated_strings objects_not_updated with
    | inr e => ([], Uncaught e)
    | inl strings =>
        let not_updated_flattened := join newline_indent strings in
        (["Objects Updated:" +:+ newline_indent +:+ updated_flattened;
          "Objects Not Updated:" +:+ newline_indent +:+ not_updated_flattened],
         Done)
    end
  else
    (["Object Count Updated: " +:+ pretty (length objects_updated);
      "Objects Count Not Updated: " +:+ pretty (length objects_not_updated)],
     Done).

(** Lines 157-166, from the record set that [netbox_type.all()] yields:
    the calls made, the lines printed, and how the script ends.  The
    repair runs with the default [expected_types]. *)
Definition main (args : Args) (recordset : list NbObj)
    : list event * (list string * finished) :=
  match fix_netbox_json_field json_loads store_accepts (args_field_name args)
          (args_max_iterations args) (args_make_changes args)
          default_expected_types (args_replace_empty_string_with_null args)
          recordset with
  | (calls, Returns (objects_updated, objects_not_updated)) =>
      (calls, report (args_verbose args) objects_updated objects_not_updated)
  | (calls, Raises e) => (calls, ([], Uncaught (RepairError e)))
  end.
End CommandLine.

(** The objects whose write the store accepted, and those whose write it
    rejected, in the order of the calls. *)
Definition accepted_targets (calls : list event) : list NbObj :=
  omap (λ ev, match ev with Update nbobj _ _ true => Some nbobj | _ => None end)
    calls.

Definition rejected_targets (calls : list event) : list NbObj :=
  omap (λ ev, match ev with Update nbobj _ _ false => Some nbobj | _ => None end)
    calls.

(** The integer literal of [n] digits 1. *)
Definition ones (n : nat) : string :=
  String.string_of_list_ascii (replicate n "1"%char).

(** Texts and record sets to run the definitions on. *)
Module Sample.
Local Open Scope string_scope.

Definition quoted (s : string) : string :=
  String "034" (s +:+ String "034" EmptyString).

(** The JSON string literal of a text without control characters. *)
Fixpoint escape (s : string) : string :=
  match s with
  | EmptyString => EmptyString
  | String c r =>
      if Ascii.eqb c "034" || Ascii.eqb c "092"
      then String "092" (String c (escape r))
      else String c (escape r)
  end.

Definition dumps_str (s : string) : string := quoted (escape s).

Definition nbobj (id : nat) (v : value) : NbObj := mkNbObj id {["data" := v]}.

Definition accept_all : NbObj → string → value → bool := λ _ _ _, true.
Definition reject_all : NbObj → string → value → bool := λ _ _ _, false.

(** A record set with well-typed values, an absent field, and texts that
    can and cannot be repaired. *)
Definition recordset : list NbObj :=
  [nbobj 1 (VStr "{}"); nbobj 2 (VDict ∅); nbobj 3 VNone; mkNbObj 4 ∅;
   nbobj 5 (VStr "5"); nbobj 6 (VStr EmptyString);
   nbobj 7 (VStr "not json at all");
   nbobj 8 (VStr (dumps_str (dumps_str "[]")))].
End Sample.

(** * Properties *)

(** ** Running a computation *)

Lemma py_eta {A} (m : py A) : m = (trace m, result m).
Proof. by destruct m. Qed.

Lemma py_bind_returns {A B} (t : list event) (a : A) (k : A → py B) :
  py_bind (t, Returns a) k = (t ++ trace (k a), result (k a)).
Proof. unfold py_bind, trace, result. by destruct (k a). Qed.

Lemma py_bind_raises {A B} (t : list event) (e : exn) (k : A → py B) :
  py_bind (t, Raises e) k = (t, Raises e).
Proof. reflexivity. Qed.

Lemma py_bind_ret_l {A B} (a : A) (k : A → py B) : py_bind (py_ret a) k = k a.
Proof. unfold py_ret. rewrite py_bind_returns. symmetry. apply py_eta. Qed.

Lemma py_bind_assoc {A B C} (m : py A) (k : A → py B) (h : B → py C) :
  py_bind (py_bind m k) h = py_bind m (λ a, py_bind (k a) h).
Proof.
  destruct m as [t [a | e]]; [| done].
  rewrite !py_bind_returns.
  destruct (k a) as [t' [b | e]]; cbn [trace result fst snd].
  - rewrite !py_bind_returns. cbn [trace result fst snd]. by rewrite app_assoc.
  - done.
Qed.

Lemma py_bind_ext {A B} (m : py A) (k k' : A → py B) :
  (∀ a, k a = k' a) → py_bind m k = py_bind m k'.
Proof. intros Hk. destruct m as [t [a | e]]; [| done]. cbn. by rewrite Hk. Qed.

(** ** The unwrapper *)

Section UnwrapperFacts.
Variable json_loads : string → outcome value.

Lemma unwrap_loop_no_pass et data :
  unwrap_loop json_loads et 0 data = ([], Returns (false, VNone)).
Proof. reflexivity. Qed.

Lemma unwrap_loop_decode_error et passes s :
  json_loads s = Raises JSONDecodeError →
  unwrap_loop json_loads et (S passes) (VStr s)
  = ([Loads (VStr s)], Returns (false, VNone)).
Proof. intros Hs. cbn. unfold json_loads_call. by rewrite Hs. Qed.

(** An exception of [json.loads] on a text that line 22 does not catch. *)
Lemma unwrap_loop_other_error et passes s e :
  json_loads s = Raises e → is_JSONDecodeError e = false →
  unwrap_loop json_loads et (S passes) (VStr s) = ([Loads (VStr s)], Raises e).
Proof. intros Hs He. cbn. unfold json_loads_call. rewrite Hs. cbn. by rewrite He. Qed.

Lemma unwrap_loop_found et passes s d :
  json_loads s = Returns d → found_expected et d = true →
  unwrap_loop json_loads et (S passes) (VStr s)
  = ([Loads (VStr s)], Returns (true, d)).
Proof. intros Hs Hd. cbn. unfold json_loads_call. rewrite Hs. cbn. by rewrite Hd. Qed.

Lemma unwrap_loop_again et passes s d :
  json_loads s = Returns d → found_expected et d = false →
  unwrap_loop json_loads et (S passes) (VStr s)
  = (Loads (VStr s) :: trace (unwrap_loop json_loads et passes d),
     result (unwrap_loop json_loads et passes d)).
Proof.
  intros Hs Hd. cbn. unfold json_loads_call. rewrite Hs. cbn. rewrite Hd.
  by destruct (unwrap_loop json_loads et passes d).
Qed.

Lemma unwrap_loop_not_text et passes data :
  isinstance data [TStr] = false →
  unwrap_loop json_loads et (S passes) data = ([Loads data], Raises TypeError).
Proof. by destruct data as [| | [] | | |]. Qed.

Lemma found_expected_None v :
  found_expected None v = negb (isinstance v [TStr]).
Proof. reflexivity. Qed.

Lemma isinstance_str v :
  isinstance v [TStr] = true ↔ ∃ s, v = VStr s.
Proof.
  split; [| by intros [s ->]].
  destruct v as [| | [] | s | |]; try discriminate. by exists s.
Qed.

(** The four things one call of [json.loads] on a text can do. *)
Lemma json_loads_cases s :
  (∃ d, json_loads s = Returns d)
  ∨ json_loads s = Raises JSONDecodeError
  ∨ ∃ e, json_loads s = Raises e ∧ is_JSONDecodeError e = false.
Proof.
  destruct (json_loads s) as [d | e] eqn:Hs; [left; by exists d |].
  right. destruct (is_JSONDecodeError e) eqn:He.
  - left. by destruct e.
  - right. by exists e.
Qed.

(** With no expected type, what a text makes of the loop: after at most
    [passes] decodes and no other call, a value that is not a string, or
    the failure pair, or an exception that [json.loads] raised on a text
    and that is no [JSONDecodeError]. *)
Lemma unwrap_loop_text passes : ∀ s,
  (length (trace (unwrap_loop json_loads None passes (VStr s))) ≤ passes)%nat
  ∧ Forall (λ ev, is_Loads ev = true)
      (trace (unwrap_loop json_loads None passes (VStr s)))
  ∧ match result (unwrap_loop json_loads None passes (VStr s)) with
    | Returns (true, v) => isinstance v [TStr] = false
    | Returns (false, v) => v = VNone
    | Raises e =>
        is_JSONDecodeError e = false ∧ ∃ s', json_loads s' = Raises e
    end.
Proof.
  induction passes as [| passes IH]; intros s.
  - cbn. split; [lia |]. split; [constructor | done].
  - destruct (json_loads_cases s) as [[d Hs] | [Hs | (e & Hs & He)]].
    + destruct (found_expected None d) eqn:Hd.
      * rewrite (unwrap_loop_found _ _ _ _ Hs Hd). cbn.
        split; [lia |]. split; [by repeat constructor |].
        rewrite found_expected_None in Hd. by apply negb_true_iff.
      * pose proof Hd as Hstr.
        rewrite found_expected_None in Hstr. apply negb_false_iff in Hstr.
        apply isinstance_str in Hstr as [s' ->].
        destruct (IH s') as (Hlen & Hall & Hv).
        rewrite (unwrap_loop_again _ _ _ _ Hs Hd). cbn [trace result fst snd].
        split; [cbn; lia |]. split; [by constructor | done].
    + rewrite (unwrap_loop_decode_error _ _ _ Hs). cbn.
      split; [lia |]. split; [by repeat constructor | done].
    + rewrite (unwrap_loop_other_error _ _ _ _ Hs He). cbn.
      split; [lia |]. split; [by repeat constructor |].
      split; [done |]. by exists s.
Qed.

(** A text encoded [N] times is unwrapped by [N] passes, and by no fewer. *)
Lemma unwrap_loop_encoded N s v :
  encoded json_loads N s v → ∀ passes,
    ((N ≤ passes)%nat →
       result (unwrap_loop json_loads None passes (VStr s)) = Returns (true, v)
       ∧ length (trace (unwrap_loop json_loads None passes (VStr s))) = N)
    ∧ ((passes < N)%nat →
       result (unwrap_loop json_loads None passes (VStr s)) = Returns (false, VNone)
       ∧ length (trace (unwrap_loop json_loads None passes (VStr s))) = passes).
Proof.
  induction 1 as [s v Hs Hv | N s s' v Hs Henc IH]; intros passes.
  - split; intros Hle.
    + destruct passes as [| passes]; [lia |].
      rewrite (unwrap_loop_found None passes s v Hs); [done |].
      by rewrite found_expected_None, Hv.
    + by replace passes with 0%nat by lia.
  - destruct passes as [| passes]; [split; [lia | done] |].
    rewrite (unwrap_loop_again None passes s _ Hs eq_refl).
    destruct (IH passes) as [Hok Hlimit]. cbn [trace result fst snd length].
    split; intros Hle.
    + destruct Hok as [-> ->]; [lia | done].
    + destruct Hlimit as [-> ->]; [lia | done].
Qed.

Lemma encoded_positive N s v : encoded json_loads N s v → (1 ≤ N)%nat.
Proof. destruct 1; lia. Qed.
End UnwrapperFacts.

(** ** The first loop *)

Section CandidateFacts.
Variable custom_field_name : string.
Variable expected_types : list pytype.

(** The first loop is a filter. *)
Lemma collect_bad_filter recordset : ∀ acc,
  collect_bad custom_field_name expected_types recordset acc
  = acc ++ filter (needs_repair custom_field_name expected_types) recordset.
Proof.
  induction recordset as [| nbobj rest IH]; intros acc; cbn [collect_bad].
  - by rewrite filter_nil, app_nil_r.
  - destruct (well_typed expected_types (get_custom_field custom_field_name nbobj)) eqn:Hwt.
    + rewrite filter_cons_False; [apply IH |].
      unfold needs_repair. rewrite Hwt. auto.
    + rewrite filter_cons_True by (unfold needs_repair; by rewrite Hwt).
      rewrite IH. by rewrite <- app_assoc.
Qed.

Lemma candidates_filter recordset :
  candidates custom_field_name expected_types recordset
  = filter (needs_repair custom_field_name expected_types) recordset.
Proof. unfold candidates. by rewrite collect_bad_filter. Qed.

Lemma elem_of_candidates nbobj recordset :
  nbobj ∈ candidates custom_field_name expected_types recordset
  ↔ nbobj ∈ recordset
    ∧ well_typed expected_types (get_custom_field custom_field_name nbobj) = false.
Proof.
  rewrite candidates_filter, list_elem_of_filter. unfold needs_repair.
  rewrite Is_true_true, negb_true_iff. tauto.
Qed.
End CandidateFacts.

(** ** The repair workflow, record by record *)

Section RepairFacts.
Variable json_loads : string → outcome value.
Variable store_accepts : NbObj → string → value → bool.
Variable custom_field_name : string.
Variable max_iterations : Z.
Variable make_changes : bool.
Variable expected_types : list pytype.
Variable replace_empty_string_with_null : bool.

Local Abbreviation field := (get_custom_field custom_field_name).
Local Abbreviation fix_of :=
  (compute_fix json_loads custom_field_name max_iterations
     replace_empty_string_with_null).
Local Abbreviation place :=
  (placement json_loads store_accepts custom_field_name max_iterations
     make_changes replace_empty_string_with_null).
Local Abbreviation calls :=
  (calls_of json_loads store_accepts custom_field_name max_iterations
     make_changes replace_empty_string_with_null).
Local Abbreviation loop :=
  (repair_loop json_loads store_accepts custom_field_name max_iterations
     make_changes replace_empty_string_with_null).

(** The fix of one record. *)
Lemma compute_fix_text nbobj s :
  field nbobj = VStr s →
  Forall (λ ev, is_Loads ev = true) (trace (fix_of nbobj))
  ∧ match result (fix_of nbobj) with
    | Returns (status, v) =>
        if status then isinstance v [TStr] = false else v = VNone
    | Raises e =>
        is_JSONDecodeError e = false ∧ ∃ s', json_loads s' = Raises e
    end.
Proof.
  intros Hs. unfold compute_fix. rewrite Hs.
  destruct (is_empty_str (VStr s) && replace_empty_string_with_null).
  - split; [constructor | done].
  - destruct (unwrap_loop_text json_loads (Z.to_nat max_iterations) s)
      as (_ & Hall & Hv).
    split; [done |]. unfold unwrap_actual_json.
    by destruct (result _) as [[[] v] | e].
Qed.

Lemma compute_fix_not_text nbobj :
  isinstance (field nbobj) [TStr] = false →
  fix_of nbobj
  = if 0 <? max_iterations then ([Loads (field nbobj)], Raises TypeError)
    else ([], Returns (false, VNone)).
Proof.
  intros Hv. unfold compute_fix.
  replace (is_empty_str (field nbobj)) with false
    by (by destruct (field nbobj) as [| | [] | | |]).
  cbn [andb]. unfold unwrap_actual_json.
  destruct (Z.ltb_spec 0 max_iterations) as [Hpos | Hneg].
  - destruct (Z.to_nat max_iterations) as [| passes] eqn:Hp; [lia |].
    by apply unwrap_loop_not_text.
  - by replace (Z.to_nat max_iterations) with 0%nat by lia.
Qed.

(** A fix calls nothing but [json.loads].  It returns a value that is not
    a string, or the failure pair; or it raises: [TypeError] on a value
    that is no text, or what [json.loads] raised on a text. *)
Lemma compute_fix_outcome nbobj :
  Forall (λ ev, is_Loads ev = true) (trace (fix_of nbobj))
  ∧ match result (fix_of nbobj) with
    | Returns (status, v) =>
        if status then isinstance v [TStr] = false else v = VNone
    | Raises e =>
        (e = TypeError ∧ isinstance (field nbobj) [TStr] = false
         ∧ 0 < max_iterations
         ∧ trace (fix_of nbobj) = [Loads (field nbobj)])
        ∨ (is_JSONDecodeError e = false ∧ ∃ s, json_loads s = Raises e)
    end.
Proof.
  destruct (isinstance (field nbobj) [TStr]) eqn:Hv.
  - apply isinstance_str in Hv as [s Hs].
    destruct (compute_fix_text nbobj s Hs) as (Hall & Hres).
    split; [done |]. destruct (result _) as [[] | e]; [done |]. by right.
  - rewrite (compute_fix_not_text nbobj Hv).
    destruct (Z.ltb_spec 0 max_iterations).
    + split; [by repeat constructor |]. by left.
    + split; [constructor | done].
Qed.

(** The bucket of one record. *)
Lemma placement_failed nbobj t v :
  fix_of nbobj = (t, Returns (false, v)) → place nbobj = (t, Returns false).
Proof.
  intros Hfix. unfold placement. rewrite Hfix, py_bind_returns. cbn.
  by rewrite app_nil_r.
Qed.

Lemma placement_raises nbobj t e :
  fix_of nbobj = (t, Raises e) → place nbobj = (t, Raises e).
Proof. intros Hfix. unfold placement. by rewrite Hfix. Qed.

Lemma placement_dry_run nbobj t v :
  make_changes = false →
  fix_of nbobj = (t, Returns (true, v)) → place nbobj = (t, Returns true).
Proof.
  intros Hdry Hfix. unfold placement. rewrite Hfix, py_bind_returns, Hdry. cbn.
  by rewrite app_nil_r.
Qed.

Lemma placement_apply nbobj t v :
  make_changes = true →
  fix_of nbobj = (t, Returns (true, v)) →
  place nbobj
  = (t ++ [Update nbobj custom_field_name v
             (store_accepts nbobj custom_field_name v)],
     Returns (store_accepts nbobj custom_field_name v)).
Proof.
  intros Happly Hfix. unfold placement. rewrite Hfix, py_bind_returns, Happly.
  cbn. unfold nbobj_update.
  by destruct (store_accepts nbobj custom_field_name v).
Qed.

(** One pass of the second loop is the placement of its record. *)
Lemma repair_loop_cons nbobj rest u n :
  loop (nbobj :: rest) u n
  = (b <- place nbobj ;;
     if b then loop rest (u ++ [nbobj]) n else loop rest u (n ++ [nbobj])).
Proof.
  unfold placement. rewrite py_bind_assoc. cbn [repair_loop].
  apply py_bind_ext. intros [status fixed_value].
  destruct status; cbn [negb].
  - destruct make_changes.
    + done.
    + by rewrite py_bind_ret_l.
  - by rewrite py_bind_ret_l.
Qed.

Lemma repair_loop_returns cands : ∀ u n,
  Forall (λ c, returns (place c) = true) cands →
  loop cands u n
  = (calls cands,
     Returns (u ++ filter (placed_updated json_loads store_accepts
                             custom_field_name max_iterations make_changes
                             replace_empty_string_with_null) cands,
              n ++ filter (placed_not_updated json_loads store_accepts
                             custom_field_name max_iterations make_changes
                             replace_empty_string_with_null) cands)).
Proof.
  induction cands as [| c rest IH]; intros u n Hall.
  - cbn [repair_loop]. by rewrite !filter_nil, !app_nil_r.
  - apply Forall_cons in Hall as [Hc Hrest]. rewrite repair_loop_cons.
    unfold calls_of. rewrite fmap_cons. cbn [concat]. unfold returns in Hc.
    destruct (result (place c)) as [[] | e] eqn:Hres; [| | done].
    + rewrite (py_eta (place c)) at 1.
      rewrite Hres, py_bind_returns, IH by done. cbn [trace result fst snd].
      rewrite filter_cons_True by (unfold placed_updated; by rewrite Hres).
      rewrite filter_cons_False
        by (unfold placed_not_updated; rewrite Hres; auto).
      by rewrite <- app_assoc.
    + rewrite (py_eta (place c)) at 1.
      rewrite Hres, py_bind_returns, IH by done. cbn [trace result fst snd].
      rewrite filter_cons_False by (unfold placed_updated; rewrite Hres; auto).
      rewrite filter_cons_True by (unfold placed_not_updated; by rewrite Hres).
      by rewrite <- app_assoc.
Qed.

(** When a pass raises, the loop stops there and the exception escapes. *)
Lemma repair_loop_raises before c e after : ∀ u n,
  Forall (λ c, returns (place c) = true) before →
  result (place c) = Raises e →
  loop (before ++ c :: after) u n
  = (calls before ++ trace (place c), Raises e).
Proof.
  induction before as [| b before IH]; intros u n Hall Hc.
  - cbn [app]. rewrite repair_loop_cons, (py_eta (place c)), Hc. done.
  - apply Forall_cons in Hall as [Hb Hbefore].
    rewrite <- app_comm_cons, repair_loop_cons. unfold returns in Hb.
    unfold calls_of. rewrite fmap_cons. cbn [concat].
    destruct (result (place b)) as [placed | ?] eqn:Hres; [| done].
    rewrite (py_eta (place b)) at 1. rewrite Hres, py_bind_returns.
    destruct placed; rewrite IH by done; cbn [trace result fst snd];
      by rewrite app_assoc.
Qed.

(** Either every pass returns, or there is a first one that raises. *)
Lemma passes_return_or_raise cands :
  Forall (λ c, returns (place c) = true) cands
  ∨ ∃ before c e after,
      cands = before ++ c :: after
      ∧ Forall (λ c, returns (place c) = true) before
      ∧ result (place c) = Raises e.
Proof.
  induction cands as [| c rest IH]; [by left |].
  destruct (result (place c)) as [b | e] eqn:Hc.
  - destruct IH as [Hall | (before & c' & e & after & -> & Hall & Hc')].
    + left. constructor; [| done]. unfold returns. by rewrite Hc.
    + right. exists (c :: before), c', e, after.
      split; [done |]. split; [| done].
      constructor; [| done]. unfold returns. by rewrite Hc.
  - right. by exists [], c, e, rest.
Qed.
End RepairFacts.

(** ** The repair workflow, as a whole *)

Section WorkflowFacts.
Variable json_loads : string → outcome value.
Variable store_accepts : NbObj → string → value → bool.
Variable custom_field_name : string.
Variable max_iterations : Z.
Variable make_changes : bool.
Variable expected_types : list pytype.
Variable replace_empty_string_with_null : bool.

Local Abbreviation field := (get_custom_field custom_field_name).
Local Abbreviation fix_of :=
  (compute_fix json_loads custom_field_name max_iterations
     replace_empty_string_with_null).
Local Abbreviation place :=
  (placement json_loads store_accepts custom_field_name max_iterations
     make_changes replace_empty_string_with_null).
Local Abbreviation calls :=
  (calls_of json_loads store_accepts custom_field_name max_iterations
     make_changes replace_empty_string_with_null).
Local Abbreviation to_updated :=
  (placed_updated json_loads store_accepts custom_field_name max_iterations
     make_changes replace_empty_string_with_null).
Local Abbreviation to_not_updated :=
  (placed_not_updated json_loads store_accepts custom_field_name max_iterations
     make_changes replace_empty_string_with_null).
Local Abbreviation run :=
  (fix_netbox_json_field json_loads store_accepts custom_field_name
     max_iterations make_changes expected_types
     replace_empty_string_with_null).
Local Abbreviation cands := (candidates custom_field_name expected_types).

(** The four ways a pass can go. *)
Lemma placement_cases c :
  (∃ t v, fix_of c = (t, Returns (false, v)) ∧ place c = (t, Returns false))
  ∨ (∃ t v, fix_of c = (t, Returns (true, v)) ∧ make_changes = false
            ∧ place c = (t, Returns true))
  ∨ (∃ t v, fix_of c = (t, Returns (true, v)) ∧ make_changes = true
            ∧ place c
              = (t ++ [Update c custom_field_name v
                         (store_accepts c custom_field_name v)],
                 Returns (store_accepts c custom_field_name v)))
  ∨ (∃ t e, fix_of c = (t, Raises e) ∧ place c = (t, Raises e)).
Proof.
  destruct (fix_of c) as [t [[[] v] | e]] eqn:Hfix.
  - destruct make_changes eqn:Hmode.
    + right; right; left. exists t, v. split; [done |]. split; [done |].
      by eapply placement_apply.
    + right; left. exists t, v. split; [done |]. split; [done |].
      by eapply placement_dry_run.
  - left. exists t, v. split; [done |]. by eapply placement_failed.
  - right; right; right. exists t, e. split; [done |]. by eapply placement_raises.
Qed.

(** A pass raises when its fix does: [TypeError] on a value that is no
    text, or what [json.loads] raised on a text; it has then called
    nothing but [json.loads]. *)
Lemma placement_raises_inv c e :
  result (place c) = Raises e →
  fix_of c = (trace (place c), Raises e)
  ∧ Forall (λ ev, is_Loads ev = true) (trace (place c))
  ∧ ((e = TypeError ∧ isinstance (field c) [TStr] = false
      ∧ 0 < max_iterations
      ∧ place c = ([Loads (field c)], Raises TypeError))
     ∨ (is_JSONDecodeError e = false ∧ ∃ s, json_loads s = Raises e)).
Proof.
  intros Hc. pose proof (compute_fix_outcome json_loads custom_field_name
    max_iterations replace_empty_string_with_null c) as [Hloads Hout].
  destruct (placement_cases c)
    as [(t & v & Hfix & Hp) | [(t & v & Hfix & _ & Hp)
       | [(t & v & Hfix & _ & Hp) | (t & e' & Hfix & Hp)]]];
    rewrite Hp in Hc; try discriminate.
  injection Hc as ->. rewrite Hfix in Hout, Hloads. cbn in Hout, Hloads.
  rewrite Hp. split; [done |]. split; [done |].
  destruct Hout as [(-> & Hv & Hmax & ->) | Hother]; [left | by right].
  done.
Qed.

(** A pass returns exactly when its fix does. *)
Lemma placement_returns c : returns (place c) = returns (fix_of c).
Proof.
  unfold returns.
  destruct (placement_cases c)
    as [(t & v & Hfix & Hp) | [(t & v & Hfix & _ & Hp)
       | [(t & v & Hfix & _ & Hp) | (t & e & Hfix & Hp)]]];
    by rewrite Hp, Hfix.
Qed.

(** The calls of a pass: decodes, then at most the write of its own
    record, in apply mode, with the value of a successful fix. *)
Lemma placement_calls c :
  Forall (λ ev, is_Loads ev = true
                ∨ ∃ v, ev = Update c custom_field_name v
                              (store_accepts c custom_field_name v)
                       ∧ make_changes = true
                       ∧ result (fix_of c) = Returns (true, v))
    (trace (place c)).
Proof.
  pose proof (compute_fix_outcome json_loads custom_field_name
    max_iterations replace_empty_string_with_null c) as [Hloads _].
  destruct (placement_cases c)
    as [(t & v & Hfix & Hp) | [(t & v & Hfix & _ & Hp)
       | [(t & v & Hfix & Hmode & Hp) | (t & e' & Hfix & Hp)]]];
    rewrite Hp; rewrite Hfix in Hloads; cbn [trace fst] in *;
    try (eapply Forall_impl; [exact Hloads | by intros; left]).
  apply Forall_app. split.
  - eapply Forall_impl; [exact Hloads | by intros; left].
  - apply Forall_singleton. right. exists v. by rewrite Hfix.
Qed.

Lemma calls_of_app l1 l2 : calls (l1 ++ l2) = calls l1 ++ calls l2.
Proof. unfold calls_of. by rewrite fmap_app, concat_app. Qed.

Lemma calls_of_cons c l : calls (c :: l) = trace (place c) ++ calls l.
Proof. reflexivity. Qed.

Lemma calls_of_events l :
  Forall (λ ev, is_Loads ev = true
                ∨ ∃ c v, c ∈ l
                         ∧ ev = Update c custom_field_name v
                                  (store_accepts c custom_field_name v)
                         ∧ make_changes = true
                         ∧ result (fix_of c) = Returns (true, v))
    (calls l).
Proof.
  induction l as [| c l IH]; [constructor |].
  rewrite calls_of_cons. apply Forall_app. split.
  - eapply Forall_impl; [apply placement_calls |].
    intros ev [Hl | (v & Hev & Hrest)]; [by left |].
    right. exists c, v. split; [by left | done].
  - eapply Forall_impl; [exact IH |].
    intros ev [Hl | (c' & v & Hin & Hrest)]; [by left |].
    right. exists c', v. split; [by right | done].
Qed.

Lemma run_unfold recordset :
  run recordset
  = repair_loop json_loads store_accepts custom_field_name max_iterations
      make_changes replace_empty_string_with_null (cands recordset) [] [].
Proof. reflexivity. Qed.

(** A run that returns: every pass returned, and the buckets are the two
    filters of the candidates. *)
Lemma run_returns recordset :
  Forall (λ c, returns (place c) = true) (cands recordset) →
  run recordset
  = (calls (cands recordset),
     Returns (filter to_updated (cands recordset),
              filter to_not_updated (cands recordset))).
Proof.
  intros Hall. rewrite run_unfold.
  by rewrite (repair_loop_returns _ _ _ _ _ _ _ [] [] Hall).
Qed.

Lemma run_returns_inv recordset updated not_updated :
  result (run recordset) = Returns (updated, not_updated) →
  Forall (λ c, returns (place c) = true) (cands recordset)
  ∧ updated = filter to_updated (cands recordset)
  ∧ not_updated = filter to_not_updated (cands recordset)
  ∧ trace (run recordset) = calls (cands recordset).
Proof.
  intros Hrun.
  destruct (passes_return_or_raise json_loads store_accepts custom_field_name
              max_iterations make_changes replace_empty_string_with_null
              (cands recordset))
    as [Hall | (before & c & e & after & Hsplit & Hall & Hc)].
  - rewrite (run_returns _ Hall) in Hrun |- *. cbn in Hrun.
    by injection Hrun as <- <-.
  - rewrite run_unfold, Hsplit in Hrun.
    by rewrite (repair_loop_raises _ _ _ _ _ _ _ _ _ _ [] [] Hall Hc) in Hrun.
Qed.

(** A run that raises: out of the first pass that raises, the passes
    after it never made. *)
Lemma run_raises_inv recordset e :
  result (run recordset) = Raises e →
  ∃ before c after,
    cands recordset = before ++ c :: after
    ∧ Forall (λ c, returns (place c) = true) before
    ∧ result (place c) = Raises e
    ∧ Forall (λ ev, is_Loads ev = true) (trace (place c))
    ∧ run recordset = (calls before ++ trace (place c), Raises e).
Proof.
  intros Hrun.
  destruct (passes_return_or_raise json_loads store_accepts custom_field_name
              max_iterations make_changes replace_empty_string_with_null
              (cands recordset))
    as [Hall | (before & c & e' & after & Hsplit & Hall & Hc)].
  - by rewrite (run_returns _ Hall) in Hrun.
  - assert (run recordset = (calls before ++ trace (place c), Raises e'))
      as Heq.
    { rewrite run_unfold, Hsplit.
      apply (repair_loop_raises _ _ _ _ _ _ _ _ _ _ [] [] Hall Hc). }
    rewrite Heq in Hrun. injection Hrun as <-.
    destruct (placement_raises_inv c e' Hc) as (_ & Hloads & _).
    by exists before, c, after.
Qed.

(** The run returns exactly when the fix of every candidate does. *)
Lemma run_returns_iff recordset :
  returns (run recordset) = true
  ↔ Forall (λ c, returns (fix_of c) = true) (cands recordset).
Proof.
  split.
  - intros Hret. unfold returns in Hret.
    destruct (result (run recordset)) as [[u n] |] eqn:Hrun; [| done].
    apply run_returns_inv in Hrun as (Hall & _).
    eapply Forall_impl; [exact Hall |]. intros c Hc.
    by rewrite <- placement_returns.
  - intros Hall. rewrite run_returns; [done |].
    eapply Forall_impl; [exact Hall |]. intros c Hc.
    by rewrite placement_returns.
Qed.

End WorkflowFacts.

(** ** Splitting a list in two *)

Lemma splits_filter {A} (f g : A → bool) (l : list A) :
  Forall (λ x, f x = negb (g x)) l → splits l (filter f l) (filter g l).
Proof.
  induction 1 as [| x l Hx Hl IH]; [constructor |].
  destruct (g x) eqn:Hg; cbn in Hx.
  - rewrite (filter_cons_False (λ x, f x)) by (rewrite Hx; auto).
    rewrite (filter_cons_True (λ x, g x)) by (by rewrite Hg).
    by constructor.
  - rewrite (filter_cons_True (λ x, f x)) by (by rewrite Hx).
    rewrite (filter_cons_False (λ x, g x)) by (rewrite Hg; auto).
    by constructor.
Qed.

Lemma splits_length {A} (l l1 l2 : list A) :
  splits l l1 l2 → (length l1 + length l2 = length l)%nat.
Proof. induction 1; cbn; lia. Qed.

Lemma splits_Permutation {A} (l l1 l2 : list A) :
  splits l l1 l2 → l ≡ₚ l1 ++ l2.
Proof.
  induction 1 as [| x l l1 l2 _ IH | x l l1 l2 _ IH]; [done | |].
  - cbn. by rewrite IH.
  - rewrite IH. apply Permutation_middle.
Qed.

Lemma splits_sublist {A} (l l1 l2 : list A) :
  splits l l1 l2 → sublist l1 l ∧ sublist l2 l.
Proof.
  induction 1 as [| x l l1 l2 _ [IH1 IH2] | x l l1 l2 _ [IH1 IH2]].
  - split; constructor.
  - split; by constructor.
  - split; by constructor.
Qed.

Lemma splits_disjoint {A} (l l1 l2 : list A) :
  splits l l1 l2 → NoDup l → ∀ x, x ∈ l1 → x ∉ l2.
Proof.
  intros Hs Hnd x H1 H2. apply splits_Permutation in Hs.
  rewrite Hs in Hnd. apply NoDup_app in Hnd as (_ & Hdisj & _).
  by apply (Hdisj x).
Qed.

(** ** The store after a run *)

Lemma apply_write_foreign nbobj ev : foreign_to nbobj ev → apply_write nbobj ev = nbobj.
Proof.
  destruct ev as [| target field v []]; cbn; [done | | done].
  intros Hid. by rewrite (proj2 (Nat.eqb_neq _ _) Hid).
Qed.

Lemma refetch_foreign calls nbobj :
  Forall (foreign_to nbobj) calls → refetch calls nbobj = nbobj.
Proof.
  unfold refetch. induction 1 as [| ev calls Hev _ IH]; [done |].
  cbn. by rewrite apply_write_foreign.
Qed.

Lemma refetch_app calls1 calls2 nbobj :
  refetch (calls1 ++ calls2) nbobj = refetch calls2 (refetch calls1 nbobj).
Proof. apply foldl_app. Qed.

Lemma obj_id_apply_write nbobj ev : obj_id (apply_write nbobj ev) = obj_id nbobj.
Proof.
  destruct ev as [| target field v []]; cbn; [done | | done].
  by destruct (obj_id target =? obj_id nbobj)%nat.
Qed.

Lemma obj_id_refetch calls : ∀ nbobj, obj_id (refetch calls nbobj) = obj_id nbobj.
Proof.
  unfold refetch. induction calls as [| ev calls IH]; intros nbobj; [done |].
  cbn. by rewrite IH, obj_id_apply_write.
Qed.

Lemma foreign_to_loads nbobj calls :
  Forall (λ ev, is_Loads ev = true) calls → Forall (foreign_to nbobj) calls.
Proof. intros Hall. eapply Forall_impl; [exact Hall |]. by intros []. Qed.

Section StoreFacts.
Variable json_loads : string → outcome value.
Variable store_accepts : NbObj → string → value → bool.
Variable custom_field_name : string.
Variable max_iterations : Z.
Variable make_changes : bool.
Variable replace_empty_string_with_null : bool.

Local Abbreviation place :=
  (placement json_loads store_accepts custom_field_name max_iterations
     make_changes replace_empty_string_with_null).
Local Abbreviation calls :=
  (calls_of json_loads store_accepts custom_field_name max_iterations
     make_changes replace_empty_string_with_null).

(** The passes over other objects leave an object alone. *)
Lemma calls_of_foreign nbobj l :
  obj_id nbobj ∉ obj_id <$> l → Forall (foreign_to nbobj) (calls l).
Proof.
  intros Hid. eapply Forall_impl; [apply calls_of_events |].
  intros ev [Hl | (c & v & Hc & -> & _)]; [by destruct ev |].
  cbn. intros Heq. apply Hid. rewrite <- Heq. by apply list_elem_of_fmap_2.
Qed.

(** Among objects with distinct identities, only its own pass touches an
    object. *)
Lemma refetch_calls_of l c :
  NoDup (obj_id <$> l) → c ∈ l →
  refetch (calls l) c = refetch (trace (place c)) c.
Proof.
  intros Hnd Hc. apply list_elem_of_split in Hc as (before & after & ->).
  rewrite fmap_app, fmap_cons in Hnd.
  apply NoDup_app in Hnd as (_ & Hbefore & Hafter).
  apply NoDup_cons in Hafter as [Hafter _].
  rewrite calls_of_app, calls_of_cons, !refetch_app.
  rewrite (refetch_foreign (calls before)).
  - apply refetch_foreign.
    eapply Forall_impl; [apply (calls_of_foreign c after Hafter) |].
    intros [] Hev; [done |]. cbn in *. by rewrite obj_id_refetch.
  - apply calls_of_foreign. intros Hin. apply (Hbefore _ Hin). by left.
Qed.
(** In apply mode a record placed in [nbobj_updated] holds its fixed value
    afterwards, and that value is not a string. *)
Lemma refetch_placed_updated l c :
  make_changes = true → NoDup (obj_id <$> l) → c ∈ l →
  result (place c) = Returns true →
  ∃ v, result (compute_fix json_loads custom_field_name max_iterations
                 replace_empty_string_with_null c) = Returns (true, v)
       ∧ isinstance v [TStr] = false
       ∧ refetch (calls l) c
         = mkNbObj (obj_id c) (<[custom_field_name := v]> (custom_fields c)).
Proof.
  intros Hmode Hnd Hin Hplaced. rewrite (refetch_calls_of l c Hnd Hin).
  pose proof (compute_fix_outcome json_loads custom_field_name max_iterations
                replace_empty_string_with_null c) as [Hloads Hvalue].
  destruct (placement_cases json_loads store_accepts custom_field_name
              max_iterations make_changes replace_empty_string_with_null c)
    as [(t & v & Hfix & Hp) | [(t & v & Hfix & Hdry & Hp)
       | [(t & v & Hfix & _ & Hp) | (t & e & Hfix & Hp)]]];
    rewrite Hp in Hplaced |- *; cbn [result snd trace fst] in *;
    try congruence.
  injection Hplaced as Hok. rewrite Hok.
  rewrite Hfix in Hloads, Hvalue |- *. cbn [result snd trace fst] in *.
  exists v. split; [done |]. split; [done |].
  rewrite refetch_app, (refetch_foreign t) by (by apply foreign_to_loads).
  cbn. by rewrite Nat.eqb_refl.
Qed.

(** A record placed in [nbobj_not_updated] is left as it was. *)
Lemma refetch_placed_not_updated l c :
  NoDup (obj_id <$> l) → c ∈ l →
  result (place c) = Returns false →
  refetch (calls l) c = c.
Proof.
  intros Hnd Hin Hplaced. rewrite (refetch_calls_of l c Hnd Hin).
  pose proof (compute_fix_outcome json_loads custom_field_name max_iterations
                replace_empty_string_with_null c) as [Hloads _].
  destruct (placement_cases json_loads store_accepts custom_field_name
              max_iterations make_changes replace_empty_string_with_null c)
    as [(t & v & Hfix & Hp) | [(t & v & Hfix & Hdry & Hp)
       | [(t & v & Hfix & _ & Hp) | (t & e & Hfix & Hp)]]];
    rewrite Hp in Hplaced |- *; rewrite Hfix in Hloads;
    cbn [result snd trace fst] in *; try congruence.
  - apply refetch_foreign. by apply foreign_to_loads.
  - injection Hplaced as Hok. rewrite Hok.
    rewrite refetch_app, (refetch_foreign t) by (by apply foreign_to_loads).
    done.
Qed.

(** A record that is no candidate is left as it was. *)
Lemma refetch_not_processed l x :
  obj_id x ∉ obj_id <$> l → refetch (calls l) x = x.
Proof. intros Hid. by apply refetch_foreign, calls_of_foreign. Qed.
End StoreFacts.

(** Distinct identities tell the records of a list apart. *)
Lemma NoDup_obj_id (l : list NbObj) x y :
  NoDup (obj_id <$> l) → x ∈ l → y ∈ l → obj_id x = obj_id y → x = y.
Proof.
  induction l as [| z l IH]; intros Hnd Hx Hy Heq; [by apply elem_of_nil in Hx |].
  rewrite fmap_cons in Hnd. apply NoDup_cons in Hnd as [Hz Hnd].
  apply elem_of_cons in Hx as [-> | Hx]; apply elem_of_cons in Hy as [-> | Hy].
  - done.
  - exfalso. apply Hz. rewrite Heq. by apply list_elem_of_fmap_2.
  - exfalso. apply Hz. rewrite <- Heq. by apply list_elem_of_fmap_2.
  - by apply IH.
Qed.

(** ** The scenarios of the specification, run *)

Section Scenarios.
Local Open Scope string_scope.
Local Open Scope Z_scope.

(** The text of [null] inside a string literal, with the default bound. *)
Example scenario_quoted_null :
  unwrap_actual_json JsonText.loads (VStr (Sample.dumps_str "null")) None 10
  = ([Loads (VStr (Sample.dumps_str "null")); Loads (VStr "null")],
     Returns (true, VNone)).
Proof. reflexivity. Qed.

(** One parse, one pass. *)
Example scenario_one_pass :
  unwrap_actual_json JsonText.loads (VStr "[1, 2]") None 1
  = ([Loads (VStr "[1, 2]")],
     Returns (true, VList [VNum (NInt 1); VNum (NInt 2)])).
Proof. reflexivity. Qed.

(** The empty string is no JSON text: without the replacement option its
    record is not updated. *)
Example scenario_empty_string_kept :
  fix_netbox_json_field JsonText.loads Sample.accept_all "data" 10 true
    default_expected_types false [Sample.nbobj 6 (VStr EmptyString)]
  = ([Loads (VStr EmptyString)],
     Returns ([], [Sample.nbobj 6 (VStr EmptyString)])).
Proof. reflexivity. Qed.

Example scenario_not_json :
  fix_netbox_json_field JsonText.loads Sample.accept_all "data" 10 true
    default_expected_types false [Sample.nbobj 7 (VStr "not json at all")]
  = ([Loads (VStr "not json at all")],
     Returns ([], [Sample.nbobj 7 (VStr "not json at all")])).
Proof. reflexivity. Qed.

(** Well-typed values and absent fields are no candidates. *)
Example scenario_candidates :
  obj_id <$> candidates "data" default_expected_types Sample.recordset
  = [1; 5; 6; 7; 8]%nat.
Proof. reflexivity. Qed.

(** A run in apply mode over the sample records, the store refusing the
    write to object 6. *)
Example scenario_apply :
  let run := fix_netbox_json_field JsonText.loads
               (λ nbobj _ _, negb (obj_id nbobj =? 6)%nat) "data" 10 true
               default_expected_types true Sample.recordset in
  match result run with
  | Returns (nbobj_updated, nbobj_not_updated) =>
      obj_id <$> nbobj_updated = [1; 5; 8]%nat
      ∧ obj_id <$> nbobj_not_updated = [6; 7]%nat
  | Raises _ => False
  end
  ∧ length (decodes run) = 6%nat
  ∧ length (writes run) = 4%nat.
Proof. vm_compute. repeat split. Qed.
End Scenarios.

(** * The claims *)

Section Claims.
Local Open Scope string_scope.
Local Open Scope Z_scope.

(** ** The unwrapper *)

(** C10. When [max_iterations] is zero or negative the loop body never
    runs: whatever the input and the expected type, [unwrap_actual_json]
    returns [(False, None)] and has not called [json.loads] once. *)
Theorem unwrap_without_budget json_loads input_str expected_type max_iterations :
  max_iterations ≤ 0 →
  unwrap_actual_json json_loads input_str expected_type max_iterations
  = ([], Returns (false, VNone)).
Proof.
  intros Hmax. unfold unwrap_actual_json.
  by replace (Z.to_nat max_iterations) with 0%nat by lia.
Qed.

Lemma unwrap_without_budget_witness :
  JsonText.loads "{}" = Returns (VDict ∅)
  ∧ unwrap_actual_json JsonText.loads (VStr "{}") (Some [TDict]) (-2)
    = ([], Returns (false, VNone)).
Proof.
  split; [reflexivity |].
  apply (unwrap_without_budget JsonText.loads (VStr "{}") (Some [TDict]) (-2)).
  lia.
Defined.

(** C7. A text that [json.loads] rejects with [JSONDecodeError] at the
    first parse makes [unwrap_actual_json] return [(False, None)] after
    that one call of [json.loads], for every bound of at least one pass and
    every expected type. *)
Theorem unwrap_decode_error json_loads s expected_type max_iterations :
  json_loads s = Raises JSONDecodeError → 1 ≤ max_iterations →
  unwrap_actual_json json_loads (VStr s) expected_type max_iterations
  = ([Loads (VStr s)], Returns (false, VNone)).
Proof.
  intros Hs Hmax. unfold unwrap_actual_json.
  destruct (Z.to_nat max_iterations) as [| passes] eqn:Hp; [lia |].
  by apply unwrap_loop_decode_error.
Qed.

Lemma unwrap_decode_error_witness :
  unwrap_actual_json JsonText.loads (VStr "not json at all") None 10
  = ([Loads (VStr "not json at all")], Returns (false, VNone)).
Proof.
  apply (unwrap_decode_error JsonText.loads "not json at all" None 10);
    [reflexivity | lia].
Defined.

(** C3, as stated, fails where the number of encodings equals the bound:
    the text [{}] is the empty object encoded once, and one pass unwraps
    it, although [1 ≥ 1]. *)
Lemma unwrap_at_the_bound_counterexample :
  encoded JsonText.loads 1 "{}" (VDict ∅)
  ∧ 1 ≥ 1
  ∧ unwrap_actual_json JsonText.loads (VStr "{}") None 1
    = ([Loads (VStr "{}")], Returns (true, VDict ∅))
  ∧ result (unwrap_actual_json JsonText.loads (VStr "{}") None 1)
    ≠ Returns (false, VNone).
Proof.
  split; [by constructor |]. split; [lia |]. split; [reflexivity | discriminate].
Qed.

(** C3, amended. A text that is a value encoded [N] times, each parse
    peeling one layer, is unwrapped to that value, in [N] calls of
    [json.loads], when [N ≤ max_iterations]; when [N > max_iterations] the
    bound is used up and the result is [(False, None)]. *)
Theorem unwrap_encoded json_loads N s v max_iterations :
  encoded json_loads N s v →
  (Z.of_nat N ≤ max_iterations →
     result (unwrap_actual_json json_loads (VStr s) None max_iterations)
     = Returns (true, v)
     ∧ length (decodes (unwrap_actual_json json_loads (VStr s) None max_iterations))
       = N)
  ∧ (max_iterations < Z.of_nat N →
     result (unwrap_actual_json json_loads (VStr s) None max_iterations)
     = Returns (false, VNone)
     ∧ length (decodes (unwrap_actual_json json_loads (VStr s) None max_iterations))
       = Z.to_nat max_iterations).
Proof.
  intros Henc. unfold unwrap_actual_json, decodes.
  destruct (unwrap_loop_text json_loads (Z.to_nat max_iterations) s)
    as (_ & Hall & _).
  assert (∀ t, Forall (λ ev, is_Loads ev = true) t → filter is_Loads t = t)
    as Hfilter.
  { induction 1 as [| ev t Hev _ IH]; [done |].
    rewrite filter_cons_True by (by rewrite Hev). by rewrite IH. }
  destruct (unwrap_loop_encoded json_loads N s v Henc (Z.to_nat max_iterations))
    as [Hok Hlimit].
  rewrite (Hfilter _ Hall). split; intros Hmax.
  - apply Hok. lia.
  - apply Hlimit. apply encoded_positive in Henc. lia.
Qed.

Lemma unwrap_encoded_witness :
  let text := Sample.dumps_str (Sample.dumps_str "null") in
  encoded JsonText.loads 3 text VNone
  ∧ result (unwrap_actual_json JsonText.loads (VStr text) None 3)
    = Returns (true, VNone)
  ∧ result (unwrap_actual_json JsonText.loads (VStr text) None 2)
    = Returns (false, VNone).
Proof.
  intros text.
  assert (encoded JsonText.loads 3 text VNone) as Henc.
  { apply (encoded_again _ 2 _ (Sample.dumps_str "null")); [reflexivity |].
    apply (encoded_again _ 1 _ "null"); [reflexivity |].
    by apply encoded_once. }
  split; [exact Henc |]. split.
  - apply (unwrap_encoded JsonText.loads 3 text VNone 3 Henc). lia.
  - apply (unwrap_encoded JsonText.loads 3 text VNone 2 Henc). lia.
Defined.

(** C5, as stated, fails: handed the empty dict, which already has the
    expected type [dict], the unwrapper calls [json.loads] on it and the
    [TypeError] of that call escapes. *)
Lemma unwrap_typed_input_counterexample :
  isinstance (VDict ∅) [TDict] = true
  ∧ unwrap_actual_json JsonText.loads (VDict ∅) (Some [TDict]) 10
    = ([Loads (VDict ∅)], Raises TypeError).
Proof. split; reflexivity. Qed.

(** C5, amended. The unwrapper has no shortcut for an input that already
    has the expected type: with a bound of at least one pass it starts by
    calling [json.loads] on its input, and on an input that is not a string
    that call raises [TypeError], which escapes.  Keeping well-typed values
    away from the unwrapper is left to the driver: no candidate of
    [fix_netbox_json_field] holds [None] or a value of an expected type. *)
Theorem unwrap_decodes_first json_loads input_str expected_type max_iterations :
  1 ≤ max_iterations →
  (∃ later,
     trace (unwrap_actual_json json_loads input_str expected_type max_iterations)
     = Loads input_str :: later)
  ∧ (isinstance input_str [TStr] = false →
     unwrap_actual_json json_loads input_str expected_type max_iterations
     = ([Loads input_str], Raises TypeError))
  ∧ ∀ custom_field_name expected_types recordset nbobj,
      nbobj ∈ candidates custom_field_name expected_types recordset →
      get_custom_field custom_field_name nbobj ≠ VNone
      ∧ isinstance (get_custom_field custom_field_name nbobj) expected_types
        = false.
Proof.
  intros Hmax. unfold unwrap_actual_json.
  destruct (Z.to_nat max_iterations) as [| passes] eqn:Hp; [lia |].
  split; [| split].
  - destruct (isinstance input_str [TStr]) eqn:Hv.
    + apply isinstance_str in Hv as [s ->].
      destruct (json_loads_cases json_loads s)
        as [[d Hs] | [Hs | (e & Hs & He)]].
      * destruct (found_expected expected_type d) eqn:Hd.
        -- rewrite (unwrap_loop_found _ _ _ _ _ Hs Hd). by eexists.
        -- rewrite (unwrap_loop_again _ _ _ _ _ Hs Hd). by eexists.
      * rewrite (unwrap_loop_decode_error _ _ _ _ Hs). by eexists.
      * rewrite (unwrap_loop_other_error _ _ _ _ _ Hs He). by eexists.
    + rewrite (unwrap_loop_not_text _ _ _ _ Hv). by eexists.
  - apply unwrap_loop_not_text.
  - intros name types recordset nbobj [_ Hwt]%elem_of_candidates.
    unfold well_typed in Hwt. apply orb_false_iff in Hwt as [Hnone Hinst].
    split; [| done]. intros Heq. by rewrite Heq in Hnone.
Qed.

Lemma unwrap_decodes_first_witness :
  unwrap_actual_json JsonText.loads (VList []) (Some [TList]) 1
  = ([Loads (VList [])], Raises TypeError).
Proof.
  apply (unwrap_decodes_first JsonText.loads (VList []) (Some [TList]) 1);
    [lia | reflexivity].
Defined.
End Claims.

Section WorkflowClaims.
Local Open Scope string_scope.
Local Open Scope Z_scope.

(** ** The repair workflow *)

(** C1, as stated, fails: the text [5] is unwrapped to the number 5, which
    is none of [list], [dict] and [None]; the fix counts as successful. *)
Lemma fixed_value_counterexample :
  let nbobj := Sample.nbobj 5 (VStr "5") in
  get_custom_field "data" nbobj = VStr "5"
  ∧ compute_fix JsonText.loads "data" 10 false nbobj
    = ([Loads (VStr "5")], Returns (true, VNum (NInt 5)))
  ∧ isinstance (VNum (NInt 5)) default_expected_types = false.
Proof. repeat split. Qed.

(** C1, amended. For a candidate whose raw value is a non-empty string the
    second loop calls the unwrapper on that value with no expected type and
    the configured bound, and whenever that call succeeds the fixed value
    is not a string. *)
Theorem fixed_value_is_not_a_string json_loads custom_field_name max_iterations
    replace_empty_string_with_null nbobj s :
  get_custom_field custom_field_name nbobj = VStr s →
  s ≠ EmptyString →
  compute_fix json_loads custom_field_name max_iterations
    replace_empty_string_with_null nbobj
  = unwrap_actual_json json_loads (VStr s) None max_iterations
  ∧ ∀ fixed_value,
      result (unwrap_actual_json json_loads (VStr s) None max_iterations)
      = Returns (true, fixed_value) →
      isinstance fixed_value [TStr] = false.
Proof.
  intros Hs Hne.
  destruct (unwrap_loop_text json_loads (Z.to_nat max_iterations) s)
    as (_ & _ & Hv).
  unfold compute_fix, unwrap_actual_json. rewrite Hs.
  split.
  - by destruct s.
  - intros fixed_value Hok. by rewrite Hok in Hv.
Qed.

Lemma fixed_value_is_not_a_string_witness :
  result (unwrap_actual_json JsonText.loads (VStr "[1, 2]") None 10)
  = Returns (true, VList [VNum (NInt 1); VNum (NInt 2)])
  ∧ isinstance (VList [VNum (NInt 1); VNum (NInt 2)]) [TStr] = false.
Proof.
  split; [reflexivity |].
  apply (fixed_value_is_not_a_string JsonText.loads "data" 10 false
           (Sample.nbobj 1 (VStr "[1, 2]")) "[1, 2]");
    [reflexivity | discriminate | reflexivity].
Defined.

(** C4: the run on a record set whose first candidate holds the number 5.
    The [TypeError] of [json.loads] escapes from the second loop: no bucket
    is returned, and the repairable record behind it is never looked at.
    [run_aborts_on_non_text] has the general statement. *)
Theorem number_candidate_aborts_the_run :
  fix_netbox_json_field JsonText.loads Sample.accept_all "data" 10 false
    default_expected_types false
    [Sample.nbobj 1 (VNum (NInt 5)); Sample.nbobj 2 (VStr "{}")]
  = ([Loads (VNum (NInt 5))], Raises TypeError).
Proof. reflexivity. Qed.

(** C6. The two lists a run returns split its candidates: every candidate
    goes to exactly one of them, in the order in which the first loop found
    it in the record set, so the lengths add up, nothing is dropped or
    repeated, and a record is never in both. *)
Theorem buckets_split_the_candidates json_loads store_accepts custom_field_name
    max_iterations make_changes expected_types replace_empty_string_with_null
    recordset :
  let nbobj_with_bad_value :=
    candidates custom_field_name expected_types recordset in
  ∀ nbobj_updated nbobj_not_updated,
    result (fix_netbox_json_field json_loads store_accepts custom_field_name
              max_iterations make_changes expected_types
              replace_empty_string_with_null recordset)
    = Returns (nbobj_updated, nbobj_not_updated) →
    splits nbobj_with_bad_value nbobj_updated nbobj_not_updated
    ∧ (length nbobj_updated + length nbobj_not_updated
       = length nbobj_with_bad_value)%nat
    ∧ nbobj_with_bad_value ≡ₚ nbobj_updated ++ nbobj_not_updated
    ∧ sublist nbobj_updated nbobj_with_bad_value
    ∧ sublist nbobj_not_updated nbobj_with_bad_value
    ∧ sublist nbobj_with_bad_value recordset
    ∧ ∀ nbobj, nbobj ∈ nbobj_updated → nbobj ∉ nbobj_not_updated.
Proof.
  intros bad nbobj_updated nbobj_not_updated (Hall & -> & -> & _)%run_returns_inv.
  fold bad in Hall |- *.
  assert (splits bad
            (filter (placed_updated json_loads store_accepts custom_field_name
                       max_iterations make_changes
                       replace_empty_string_with_null) bad)
            (filter (placed_not_updated json_loads store_accepts
                       custom_field_name max_iterations make_changes
                       replace_empty_string_with_null) bad)) as Hsplit.
  { apply splits_filter. eapply Forall_impl; [exact Hall |].
    intros c Hc. unfold placed_updated, placed_not_updated, returns in *.
    by destruct (result _) as [[] |]. }
  split; [done |]. split; [by apply splits_length |].
  split; [by apply splits_Permutation |].
  split; [by apply (splits_sublist _ _ _ Hsplit) |].
  split; [by apply (splits_sublist _ _ _ Hsplit) |].
  split; [unfold bad; rewrite candidates_filter; apply sublist_filter |].
  intros nbobj [Hu _]%list_elem_of_filter [Hn _]%list_elem_of_filter.
  unfold placed_updated, placed_not_updated in *.
  by destruct (result _) as [[] |].
Qed.

Lemma buckets_split_the_candidates_witness :
  splits
    (candidates "data" default_expected_types Sample.recordset)
    [Sample.nbobj 1 (VStr "{}"); Sample.nbobj 5 (VStr "5");
     Sample.nbobj 8 (VStr (Sample.dumps_str (Sample.dumps_str "[]")))]
    [Sample.nbobj 6 (VStr EmptyString); Sample.nbobj 7 (VStr "not json at all")].
Proof.
  apply (buckets_split_the_candidates JsonText.loads
           (λ nbobj _ _, negb (obj_id nbobj =? 6)%nat) "data" 10 true
           default_expected_types true Sample.recordset).
  vm_compute. reflexivity.
Defined.
End WorkflowClaims.

Section ApplyAndDryRun.
Local Open Scope string_scope.
Local Open Scope Z_scope.

(** C8, as stated, fails in apply mode when the store rejects the write:
    the record with the empty string ends in [nbobj_not_updated]. *)
Lemma empty_string_rejected_counterexample :
  let nbobj := Sample.nbobj 6 (VStr EmptyString) in
  fix_netbox_json_field JsonText.loads Sample.reject_all "data" 10 true
    default_expected_types true [nbobj]
  = ([Update nbobj "data" VNone false], Returns ([], [nbobj])).
Proof. reflexivity. Qed.

(** C8, amended. With [replace_empty_string_with_null] set, a candidate
    whose raw value is the empty string gets the fix [None] without any
    call of [json.loads].  In a dry run nothing is written and the record
    ends in [nbobj_updated]; in apply mode the one call made for it is the
    write of [None], and the record ends in [nbobj_updated] when the store
    accepts that write and in [nbobj_not_updated] when the store rejects
    it. *)
Theorem empty_string_is_fixed_to_null json_loads store_accepts custom_field_name
    max_iterations make_changes expected_types recordset nbobj :
  nbobj ∈ candidates custom_field_name expected_types recordset →
  get_custom_field custom_field_name nbobj = VStr EmptyString →
  let accepted := store_accepts nbobj custom_field_name VNone in
  compute_fix json_loads custom_field_name max_iterations true nbobj
  = ([], Returns (true, VNone))
  ∧ placement json_loads store_accepts custom_field_name max_iterations
      make_changes true nbobj
    = (if make_changes then [Update nbobj custom_field_name VNone accepted]
       else [],
       Returns (negb make_changes || accepted))
  ∧ ∀ nbobj_updated nbobj_not_updated,
      result (fix_netbox_json_field json_loads store_accepts custom_field_name
                max_iterations make_changes expected_types true recordset)
      = Returns (nbobj_updated, nbobj_not_updated) →
      if negb make_changes || accepted
      then nbobj ∈ nbobj_updated ∧ nbobj ∉ nbobj_not_updated
      else nbobj ∈ nbobj_not_updated ∧ nbobj ∉ nbobj_updated.
Proof.
  intros Hcand Hempty accepted.
  assert (compute_fix json_loads custom_field_name max_iterations true nbobj
          = ([], Returns (true, VNone))) as Hfix.
  { unfold compute_fix. by rewrite Hempty. }
  assert (placement json_loads store_accepts custom_field_name max_iterations
            make_changes true nbobj
          = (if make_changes then [Update nbobj custom_field_name VNone accepted]
             else [],
             Returns (negb make_changes || accepted))) as Hplace.
  { destruct make_changes.
    - by rewrite (placement_apply _ store_accepts _ _ true _ _ _ _ eq_refl Hfix).
    - by rewrite (placement_dry_run _ store_accepts _ _ false _ _ _ _ eq_refl Hfix). }
  split; [done |]. split; [done |].
  intros nbobj_updated nbobj_not_updated (_ & -> & -> & _)%run_returns_inv.
  destruct (negb make_changes || accepted) eqn:Hbucket;
    rewrite !list_elem_of_filter; unfold placed_updated, placed_not_updated;
    rewrite Hplace, ?Hbucket; cbn; tauto.
Qed.

Lemma empty_string_is_fixed_to_null_witness :
  let nbobj := Sample.nbobj 6 (VStr EmptyString) in
  placement JsonText.loads Sample.accept_all "data" 10 true true nbobj
  = ([Update nbobj "data" VNone true], Returns true).
Proof.
  intros nbobj.
  apply (empty_string_is_fixed_to_null JsonText.loads Sample.accept_all "data"
           10 true default_expected_types Sample.recordset nbobj).
  - apply elem_of_candidates. split; [| reflexivity].
    apply list_elem_of_In. vm_compute. tauto.
  - reflexivity.
Defined.

(** C9. A dry run never calls [Record.update]; when it returns, every
    candidate whose unwrap succeeded is in [nbobj_updated] and not in
    [nbobj_not_updated], and every candidate handed to the unwrapper whose
    unwrap failed is in [nbobj_not_updated] and not in [nbobj_updated]. *)
Theorem dry_run_writes_nothing json_loads store_accepts custom_field_name
    max_iterations expected_types replace_empty_string_with_null recordset :
  writes (fix_netbox_json_field json_loads store_accepts custom_field_name
            max_iterations false expected_types
            replace_empty_string_with_null recordset) = []
  ∧ ∀ nbobj_updated nbobj_not_updated,
      result (fix_netbox_json_field json_loads store_accepts custom_field_name
                max_iterations false expected_types
                replace_empty_string_with_null recordset)
      = Returns (nbobj_updated, nbobj_not_updated) →
      ∀ nbobj, nbobj ∈ candidates custom_field_name expected_types recordset →
        let raw := get_custom_field custom_field_name nbobj in
        (∀ fixed_value,
           result (unwrap_actual_json json_loads raw None max_iterations)
           = Returns (true, fixed_value) →
           nbobj ∈ nbobj_updated ∧ nbobj ∉ nbobj_not_updated)
        ∧ (is_empty_str raw && replace_empty_string_with_null = false →
           ∀ no_value,
             result (unwrap_actual_json json_loads raw None max_iterations)
             = Returns (false, no_value) →
             nbobj ∈ nbobj_not_updated ∧ nbobj ∉ nbobj_updated).
Proof.
  set (run := fix_netbox_json_field _ _ _ _ _ _ _ _).
  assert (Forall (λ ev, is_Loads ev = true) (trace run)) as Hloads.
  { assert (∀ l, Forall (λ ev, is_Loads ev = true)
                   (calls_of json_loads store_accepts custom_field_name
                      max_iterations false replace_empty_string_with_null l))
      as Hcalls.
    { intros l. eapply Forall_impl; [apply calls_of_events |].
      by intros ev [Hl | (c & v & _ & _ & [=] & _)]. }
    destruct (result run) as [[u n] | e] eqn:Hrun.
    - apply run_returns_inv in Hrun as (_ & _ & _ & Htrace).
      unfold run. rewrite Htrace. apply Hcalls.
    - apply run_raises_inv
        in Hrun as (before & c & after & _ & _ & _ & Hpass & Hrun).
      unfold run. rewrite Hrun.
      apply Forall_app. split; [apply Hcalls | done]. }
  split.
  - unfold writes. fold run. induction Hloads as [| ev t Hev _ IH]; [done |].
    rewrite filter_cons_False; [done |]. destruct ev; [auto | done].
  - intros nbobj_updated nbobj_not_updated (_ & -> & -> & _)%run_returns_inv.
    intros nbobj Hcand raw. split.
    + intros fixed_value Hok.
      assert (∃ t v, compute_fix json_loads custom_field_name max_iterations
                       replace_empty_string_with_null nbobj
                     = (t, Returns (true, v))) as (t & v & Hfix).
      { unfold compute_fix. fold raw.
        destruct (is_empty_str raw && replace_empty_string_with_null).
        - by exists [], VNone.
        - exists (trace (unwrap_actual_json json_loads raw None max_iterations)),
            fixed_value.
          rewrite <- Hok. apply py_eta. }
      rewrite !list_elem_of_filter. unfold placed_updated, placed_not_updated.
      rewrite (placement_dry_run _ store_accepts _ _ _ _ _ _ _ eq_refl Hfix).
      cbn. tauto.
    + intros Hplain no_value Hfail.
      assert (compute_fix json_loads custom_field_name max_iterations
                replace_empty_string_with_null nbobj
              = (trace (unwrap_actual_json json_loads raw None max_iterations),
                 Returns (false, no_value))) as Hfix.
      { unfold compute_fix. fold raw. rewrite Hplain, <- Hfail. apply py_eta. }
      rewrite !list_elem_of_filter. unfold placed_updated, placed_not_updated.
      rewrite (placement_failed _ store_accepts _ _ false _ _ _ _ Hfix).
      cbn. tauto.
Qed.

Lemma dry_run_writes_nothing_witness :
  fix_netbox_json_field JsonText.loads Sample.accept_all "data" 10 false
    default_expected_types false
    [Sample.nbobj 1 (VStr "{}"); Sample.nbobj 7 (VStr "not json at all")]
  = ([Loads (VStr "{}"); Loads (VStr "not json at all")],
     Returns ([Sample.nbobj 1 (VStr "{}")],
              [Sample.nbobj 7 (VStr "not json at all")]))
  ∧ writes (fix_netbox_json_field JsonText.loads Sample.accept_all "data" 10
              false default_expected_types false
              [Sample.nbobj 1 (VStr "{}");
               Sample.nbobj 7 (VStr "not json at all")]) = [].
Proof.
  split; [reflexivity |].
  apply (dry_run_writes_nothing JsonText.loads Sample.accept_all "data" 10
           default_expected_types false).
Defined.
End ApplyAndDryRun.

Section SecondRun.
Local Open Scope string_scope.
Local Open Scope Z_scope.

(** C2, as stated, fails: the record whose raw value is the text [5] is
    fixed by the first run, the number 5 is written, and the second run
    finds the record among its candidates again. *)
Lemma second_run_counterexample :
  let recordset := [Sample.nbobj 5 (VStr "5")] in
  let first := fix_netbox_json_field JsonText.loads Sample.accept_all "data" 10
                 true default_expected_types false recordset in
  first = ([Loads (VStr "5");
            Update (Sample.nbobj 5 (VStr "5")) "data" (VNum (NInt 5)) true],
           Returns (recordset, []))
  ∧ persist (trace first) recordset = [Sample.nbobj 5 (VNum (NInt 5))]
  ∧ candidates "data" default_expected_types (persist (trace first) recordset)
    = [Sample.nbobj 5 (VNum (NInt 5))].
Proof. repeat split. Qed.

(** C2, amended. After a run in apply mode over records with distinct
    identities, with the accepted writes persisted: every record in
    [nbobj_updated] holds its fixed value, which is not a string, and is no
    candidate of the second run when that value is [None] or of an expected
    type; every record in [nbobj_not_updated] is unchanged and is a
    candidate again; and the second run has no other candidates than those
    and the records fixed to a value that is neither [None] nor of an
    expected type.  Its candidate set need not be empty. *)
Theorem second_run_candidates json_loads store_accepts custom_field_name
    max_iterations expected_types replace_empty_string_with_null recordset
    nbobj_updated nbobj_not_updated :
  let first := fix_netbox_json_field json_loads store_accepts custom_field_name
                 max_iterations true expected_types
                 replace_empty_string_with_null recordset in
  let second := candidates custom_field_name expected_types
                  (persist (trace first) recordset) in
  NoDup (obj_id <$> recordset) →
  result first = Returns (nbobj_updated, nbobj_not_updated) →
  (∀ nbobj, nbobj ∈ nbobj_updated →
     ∃ fixed_value,
       result (compute_fix json_loads custom_field_name max_iterations
                 replace_empty_string_with_null nbobj)
       = Returns (true, fixed_value)
       ∧ get_custom_field custom_field_name (refetch (trace first) nbobj)
         = fixed_value
       ∧ isinstance fixed_value [TStr] = false
       ∧ (well_typed expected_types fixed_value = true →
          refetch (trace first) nbobj ∉ second))
  ∧ (∀ nbobj, nbobj ∈ nbobj_not_updated →
       refetch (trace first) nbobj = nbobj ∧ nbobj ∈ second)
  ∧ (∀ again, again ∈ second →
       ∃ nbobj,
         again = refetch (trace first) nbobj
         ∧ (nbobj ∈ nbobj_not_updated
            ∨ nbobj ∈ nbobj_updated
              ∧ well_typed expected_types
                  (get_custom_field custom_field_name again) = false)).
Proof.
  intros first second Hids Hfirst. subst first second.
  apply run_returns_inv in Hfirst as (Hall & -> & -> & Htrace).
  rewrite Htrace. clear Htrace.
  set (bad := candidates custom_field_name expected_types recordset) in *.
  set (calls := calls_of json_loads store_accepts custom_field_name
                  max_iterations true replace_empty_string_with_null bad).
  assert (NoDup (obj_id <$> bad)) as Hbad.
  { eapply sublist_NoDup; [exact Hids |]. apply fmap_sublist.
    unfold bad. rewrite candidates_filter. apply sublist_filter. }
  assert (∀ nbobj, nbobj ∈ recordset → refetch calls nbobj ∈ persist calls recordset)
    as Hpersist.
  { intros nbobj Hrec. unfold persist. apply list_elem_of_fmap. by exists nbobj. }
  assert (∀ nbobj v,
            get_custom_field custom_field_name
              (mkNbObj (obj_id nbobj)
                 (<[custom_field_name := v]> (custom_fields nbobj))) = v)
    as Hget.
  { intros nbobj v. unfold get_custom_field. cbn. by rewrite lookup_insert_eq. }
  split; [| split].
  - intros nbobj [Hplaced Hin]%list_elem_of_filter.
    unfold placed_updated in Hplaced.
    destruct (result (placement _ _ _ _ _ _ nbobj)) as [[] |] eqn:Hp; try done.
    destruct (refetch_placed_updated _ _ _ _ _ _ bad nbobj eq_refl Hbad Hin Hp)
      as (v & Hfix & Hv & Hstore).
    exists v. fold calls in Hstore. rewrite Hstore, Hget.
    split; [done |]. split; [done |]. split; [done |].
    intros Hwt [_ Hcand]%elem_of_candidates. rewrite Hget in Hcand. congruence.
  - intros nbobj [Hplaced Hin]%list_elem_of_filter.
    unfold placed_not_updated in Hplaced.
    destruct (result (placement _ _ _ _ _ _ nbobj)) as [[] |] eqn:Hp; try done.
    pose proof (refetch_placed_not_updated _ _ _ _ _ _ bad nbobj Hbad Hin Hp)
      as Hsame.
    fold calls in Hsame. split; [done |].
    apply (elem_of_candidates custom_field_name expected_types) in Hin
      as [Hrec Hwt].
    apply elem_of_candidates. split; [| done].
    rewrite <- Hsame. by apply Hpersist.
  - intros again [Hagain Hwt]%elem_of_candidates.
    unfold persist in Hagain.
    apply list_elem_of_fmap in Hagain as (nbobj & -> & Hrec).
    exists nbobj. split; [done |].
    destruct (well_typed expected_types
                (get_custom_field custom_field_name nbobj)) eqn:Hbefore.
    + exfalso.
      assert (obj_id nbobj ∉ obj_id <$> bad) as Hid.
      { intros (c & Heq & Hc)%list_elem_of_fmap.
        pose proof Hc as [Hcrec Hcwt]%elem_of_candidates.
        assert (nbobj = c) as -> by (by apply (NoDup_obj_id recordset)).
        congruence. }
      unfold calls in Hwt.
      rewrite (refetch_not_processed _ _ _ _ _ _ bad nbobj Hid) in Hwt.
      congruence.
    + assert (nbobj ∈ bad) as Hin by (by apply elem_of_candidates).
      rewrite Forall_forall in Hall. specialize (Hall nbobj Hin).
      unfold returns in Hall.
      destruct (result (placement _ _ _ _ _ _ nbobj)) as [[] |] eqn:Hp;
        [| | done].
      * right. split; [| done]. apply list_elem_of_filter. split; [| done].
        unfold placed_updated. by rewrite Hp.
      * left. apply list_elem_of_filter. split; [| done].
        unfold placed_not_updated. by rewrite Hp.
Qed.

Lemma second_run_candidates_witness :
  let first := fix_netbox_json_field JsonText.loads
                 (λ nbobj _ _, negb (obj_id nbobj =? 6)%nat) "data" 10 true
                 default_expected_types true Sample.recordset in
  candidates "data" default_expected_types (persist (trace first) Sample.recordset)
  = [Sample.nbobj 5 (VNum (NInt 5)); Sample.nbobj 6 (VStr EmptyString);
     Sample.nbobj 7 (VStr "not json at all")]
  ∧ refetch (trace first) (Sample.nbobj 6 (VStr EmptyString))
    = Sample.nbobj 6 (VStr EmptyString).
Proof.
  intros first. split; [vm_compute; reflexivity |].
  eapply (second_run_candidates JsonText.loads
            (λ nbobj _ _, negb (obj_id nbobj =? 6)%nat) "data" 10
            default_expected_types true Sample.recordset
            [Sample.nbobj 1 (VStr "{}"); Sample.nbobj 5 (VStr "5");
             Sample.nbobj 8 (VStr (Sample.dumps_str (Sample.dumps_str "[]")))]
            [Sample.nbobj 6 (VStr EmptyString);
             Sample.nbobj 7 (VStr "not json at all")]).
  - apply (bool_decide_unpack _). vm_compute. exact I.
  - vm_compute. reflexivity.
  - apply list_elem_of_In. cbn. tauto.
Defined.
End SecondRun.

(** * Further properties of the code *)

(** ** The unwrapper, for any input and any expected type *)

Section UnwrapperContract.
Variable json_loads : string → outcome value.

(** What a run of the loop can be. *)
Lemma unwrap_loop_outcome et passes : ∀ data,
  Forall (λ ev, is_Loads ev = true) (trace (unwrap_loop json_loads et passes data))
  ∧ (length (trace (unwrap_loop json_loads et passes data)) ≤ passes)%nat
  ∧ match result (unwrap_loop json_loads et passes data) with
    | Returns (true, v) => found_expected et v = true
    | Returns (false, v) => v = VNone
    | Raises e =>
        ∃ earlier last,
          trace (unwrap_loop json_loads et passes data) = earlier ++ [Loads last]
          ∧ (e = TypeError ∧ isinstance last [TStr] = false
             ∨ ∃ s, last = VStr s ∧ json_loads s = Raises e
                    ∧ is_JSONDecodeError e = false)
    end.
Proof.
  induction passes as [| passes IH]; intros data.
  - cbn. split; [constructor |]. split; [lia | done].
  - destruct (isinstance data [TStr]) eqn:Hdata.
    + apply isinstance_str in Hdata as [s ->].
      destruct (json_loads_cases json_loads s)
        as [[d Hs] | [Hs | (e & Hs & He)]].
      * destruct (found_expected et d) eqn:Hd.
        -- rewrite (unwrap_loop_found _ _ _ _ _ Hs Hd). cbn.
           split; [by repeat constructor |]. split; [lia | done].
        -- rewrite (unwrap_loop_again _ _ _ _ _ Hs Hd). cbn [trace result fst snd].
           destruct (IH d) as (Hall & Hlen & Hres).
           split; [by constructor |]. split; [cbn; lia |].
           destruct (result (unwrap_loop json_loads et passes d))
             as [[[] v] | e]; [done | done |].
           destruct Hres as (earlier & last & -> & Hlast).
           by exists (Loads (VStr s) :: earlier), last.
      * rewrite (unwrap_loop_decode_error _ _ _ _ Hs). cbn.
        split; [by repeat constructor |]. split; [lia | done].
      * rewrite (unwrap_loop_other_error _ _ _ _ _ Hs He). cbn.
        split; [by repeat constructor |]. split; [lia |].
        exists [], (VStr s). split; [done |]. right. by exists s.
    + rewrite (unwrap_loop_not_text _ _ _ _ Hdata). cbn.
      split; [by repeat constructor |]. split; [lia |].
      exists [], data. split; [done |]. by left.
Qed.

(** More passes change nothing for a run that did not use its passes up. *)
Lemma unwrap_loop_more_passes et passes : ∀ data passes',
  result (unwrap_loop json_loads et passes data) ≠ Returns (false, VNone) →
  (passes ≤ passes')%nat →
  unwrap_loop json_loads et passes' data = unwrap_loop json_loads et passes data.
Proof.
  induction passes as [| passes IH]; intros data passes' Hres Hle; [done |].
  destruct passes' as [| passes']; [lia |].
  destruct (isinstance data [TStr]) eqn:Hdata.
  - apply isinstance_str in Hdata as [s ->].
    destruct (json_loads_cases json_loads s)
      as [[d Hs] | [Hs | (e & Hs & He)]].
    + destruct (found_expected et d) eqn:Hd.
      * by rewrite !(unwrap_loop_found _ _ _ _ _ Hs Hd).
      * rewrite (unwrap_loop_again _ _ passes _ _ Hs Hd) in Hres.
        rewrite (unwrap_loop_again _ _ passes _ _ Hs Hd).
        rewrite (unwrap_loop_again _ _ passes' _ _ Hs Hd).
        cbn [result snd] in Hres. rewrite (IH d passes'); [done | done | lia].
    + by rewrite (unwrap_loop_decode_error _ _ _ _ Hs) in Hres.
    + by rewrite !(unwrap_loop_other_error _ _ _ _ _ Hs He).
  - by rewrite !(unwrap_loop_not_text _ _ _ _ Hdata).
Qed.

(** Success with no expected type means an encoded text. *)
Lemma unwrap_loop_success_encoded passes : ∀ s v,
  result (unwrap_loop json_loads None passes (VStr s)) = Returns (true, v) →
  ∃ N, encoded json_loads N s v ∧ (N ≤ passes)%nat.
Proof.
  induction passes as [| passes IH]; intros s v Hres; [done |].
  destruct (json_loads_cases json_loads s)
    as [[d Hs] | [Hs | (e & Hs & He)]].
  - destruct (found_expected None d) eqn:Hd.
    + rewrite (unwrap_loop_found _ _ _ _ _ Hs Hd) in Hres.
      injection Hres as <-. exists 1%nat. split; [| lia].
      constructor; [done |]. rewrite found_expected_None in Hd.
      by apply negb_true_iff.
    + pose proof Hd as Hstr. rewrite found_expected_None in Hstr.
      apply negb_false_iff, isinstance_str in Hstr as [s' ->].
      rewrite (unwrap_loop_again _ _ _ _ _ Hs Hd) in Hres.
      destruct (IH s' v Hres) as (N & Henc & Hle).
      exists (S N). split; [by econstructor | lia].
  - by rewrite (unwrap_loop_decode_error _ _ _ _ Hs) in Hres.
  - by rewrite (unwrap_loop_other_error _ _ _ _ _ Hs He) in Hres.
Qed.
End UnwrapperContract.

Section UnwrapperExtras.
Local Open Scope string_scope.
Local Open Scope Z_scope.

(** X1. The result of [unwrap_actual_json], for every input, expected type
    and bound: a success carries a value that passes the test of line 26
    (an instance of the expected type, or any value but a string when none
    is given); a failure carries [None]; and an exception that escapes
    comes out of the last call of [json.loads]: its [TypeError] on a value
    that is not a string, or what it raised on a text, which is never the
    [JSONDecodeError] that line 22 catches. *)
Theorem unwrap_result_contract json_loads input_str expected_type max_iterations :
  match result (unwrap_actual_json json_loads input_str expected_type
                  max_iterations) with
  | Returns (true, data) =>
      match expected_type with
      | Some types => isinstance data types = true
      | None => isinstance data [TStr] = false
      end
  | Returns (false, data) => data = VNone
  | Raises e =>
      e ≠ JSONDecodeError
      ∧ ∃ earlier last,
          trace (unwrap_actual_json json_loads input_str expected_type
                   max_iterations) = (earlier ++ [Loads last])%list
          ∧ (e = TypeError ∧ isinstance last [TStr] = false
             ∨ ∃ s, last = VStr s ∧ json_loads s = Raises e)
  end.
Proof.
  unfold unwrap_actual_json.
  destruct (unwrap_loop_outcome json_loads expected_type
              (Z.to_nat max_iterations) input_str) as (_ & _ & Hres).
  destruct (result _) as [[[] v] | e]; [| done |].
  - destruct expected_type; [done |].
    rewrite found_expected_None in Hres. by apply negb_true_iff.
  - destruct Hres as (earlier & last & Htrace & Hlast). split.
    + destruct Hlast as [[-> _] | (s & _ & _ & He)]; [done |].
      intros ->. done.
    + exists earlier, last. split; [done |].
      destruct Hlast as [? | (s & ? & ? & _)]; [by left |]. right. by exists s.
Qed.

(** X2. The unwrapper only ever calls [json.loads], and at most
    [max_iterations] times (never, when the bound is not positive). *)
Theorem unwrap_call_bound json_loads input_str expected_type max_iterations :
  Forall (λ ev, is_Loads ev = true)
    (trace (unwrap_actual_json json_loads input_str expected_type max_iterations))
  ∧ Z.of_nat (length (trace (unwrap_actual_json json_loads input_str
                               expected_type max_iterations)))
    ≤ Z.max 0 max_iterations.
Proof.
  unfold unwrap_actual_json.
  destruct (unwrap_loop_outcome json_loads expected_type
              (Z.to_nat max_iterations) input_str) as (Hall & Hlen & _).
  split; [done | lia].
Qed.

(** X3. A larger bound changes nothing for a call that succeeded or
    raised: the calls made and the result are the same.  Only a
    [(False, None)] can turn into something else. *)
Theorem unwrap_larger_bound json_loads input_str expected_type
    max_iterations larger :
  result (unwrap_actual_json json_loads input_str expected_type max_iterations)
  ≠ Returns (false, VNone) →
  max_iterations ≤ larger →
  unwrap_actual_json json_loads input_str expected_type larger
  = unwrap_actual_json json_loads input_str expected_type max_iterations.
Proof.
  intros Hres Hle. unfold unwrap_actual_json in *.
  apply unwrap_loop_more_passes; [done | lia].
Qed.

Lemma unwrap_larger_bound_witness :
  unwrap_actual_json JsonText.loads (VStr (Sample.dumps_str "[]")) None 10
  = unwrap_actual_json JsonText.loads (VStr (Sample.dumps_str "[]")) None 2.
Proof.
  apply (unwrap_larger_bound JsonText.loads (VStr (Sample.dumps_str "[]")) None
           2 10); [discriminate | lia].
Defined.

(** X4. With no expected type, the unwrapper succeeds with [data] on a
    text exactly when the text is [data], not a string, under [N] layers of
    encoding for some [N] within the bound. *)
Theorem unwrap_success_iff_encoded json_loads s data max_iterations :
  result (unwrap_actual_json json_loads (VStr s) None max_iterations)
  = Returns (true, data)
  ↔ ∃ N, encoded json_loads N s data ∧ Z.of_nat N ≤ max_iterations.
Proof.
  unfold unwrap_actual_json. split.
  - intros (N & Henc & Hle)%unwrap_loop_success_encoded.
    exists N. split; [done |]. apply encoded_positive in Henc. lia.
  - intros (N & Henc & Hle).
    apply (unwrap_loop_encoded json_loads N s data Henc). lia.
Qed.

(** X5. With an expected type, a text that decodes to a value that is
    neither a string nor of that type is not told apart from a string:
    the loop goes on.  With a bound of one pass the result is
    [(False, None)]; with a larger bound the second pass calls
    [json.loads] on the decoded value and its [TypeError] escapes. *)
Theorem unwrap_unexpected_type json_loads s decoded types max_iterations :
  json_loads s = Returns decoded →
  isinstance decoded [TStr] = false →
  isinstance decoded types = false →
  (max_iterations = 1 →
   unwrap_actual_json json_loads (VStr s) (Some types) max_iterations
   = ([Loads (VStr s)], Returns (false, VNone)))
  ∧ (2 ≤ max_iterations →
     unwrap_actual_json json_loads (VStr s) (Some types) max_iterations
     = ([Loads (VStr s); Loads decoded], Raises TypeError)).
Proof.
  intros Hs Hstr Htype. unfold unwrap_actual_json.
  assert (found_expected (Some types) decoded = false) as Hd by done.
  split.
  - intros ->. change (Z.to_nat 1) with 1%nat.
    by rewrite (unwrap_loop_again _ _ _ _ _ Hs Hd).
  - intros Hmax.
    destruct (Z.to_nat max_iterations) as [| [| passes]] eqn:Hp; [lia | lia |].
    rewrite (unwrap_loop_again _ _ _ _ _ Hs Hd).
    by rewrite (unwrap_loop_not_text _ _ _ _ Hstr).
Qed.

Lemma unwrap_unexpected_type_witness :
  unwrap_actual_json JsonText.loads (VStr "5") (Some [TDict]) 10
  = ([Loads (VStr "5"); Loads (VNum (NInt 5))], Raises TypeError).
Proof.
  apply (unwrap_unexpected_type JsonText.loads "5" (VNum (NInt 5)) [TDict] 10);
    [reflexivity | reflexivity | reflexivity | lia].
Defined.
End UnwrapperExtras.

(** ** Filters by a boolean test *)


Lemma filter_bool_all {A} (f : A → bool) (l : list A) :
  Forall (λ x, f x = true) l → filter f l = l.
Proof.
  induction 1 as [| x l Hx _ IH]; [done |].
  rewrite (filter_cons_True (λ x, f x)) by (by rewrite Hx). by rewrite IH.
Qed.

Lemma filter_bool_none {A} (f : A → bool) (l : list A) :
  Forall (λ x, f x = false) l → filter f l = [].
Proof.
  induction 1 as [| x l Hx _ IH]; [done |].
  by rewrite (filter_cons_False (λ x, f x)) by (rewrite Hx; auto).
Qed.


(** ** The candidates of a record set *)

Section CandidateAlgebra.
Variable custom_field_name : string.
Variable expected_types : list pytype.

Lemma candidates_app rs1 rs2 :
  candidates custom_field_name expected_types (rs1 ++ rs2)
  = candidates custom_field_name expected_types rs1
    ++ candidates custom_field_name expected_types rs2.
Proof. rewrite !candidates_filter. apply filter_app. Qed.

Lemma candidates_idemp recordset :
  candidates custom_field_name expected_types
    (candidates custom_field_name expected_types recordset)
  = candidates custom_field_name expected_types recordset.
Proof.
  rewrite !candidates_filter. apply filter_bool_all.
  apply Forall_forall. intros nbobj [Hrepair _]%list_elem_of_filter.
  by apply Is_true_true.
Qed.

Lemma candidates_none recordset :
  Forall (λ nbobj, well_typed expected_types
                     (get_custom_field custom_field_name nbobj) = true)
    recordset →
  candidates custom_field_name expected_types recordset = [].
Proof.
  intros Hall. rewrite candidates_filter. apply filter_bool_none.
  eapply Forall_impl; [exact Hall |].
  intros nbobj Hwt. unfold needs_repair. by rewrite Hwt.
Qed.
End CandidateAlgebra.

(** ** The passes in the two modes *)

Section Modes.
Variable json_loads : string → outcome value.
Variable store_accepts : NbObj → string → value → bool.
Variable custom_field_name : string.
Variable max_iterations : Z.
Variable replace_empty_string_with_null : bool.

Local Abbreviation fix_of :=
  (compute_fix json_loads custom_field_name max_iterations
     replace_empty_string_with_null).
Local Abbreviation place :=
  (placement json_loads store_accepts custom_field_name max_iterations).

(** The decodes of a pass are those of the fix, in either mode. *)
Lemma placement_decodes make_changes c :
  decodes (place make_changes replace_empty_string_with_null c)
  = trace (fix_of c).
Proof.
  pose proof (compute_fix_outcome json_loads custom_field_name max_iterations
                replace_empty_string_with_null c) as [Hloads _].
  assert (∀ t, Forall (λ ev, is_Loads ev = true) t → filter is_Loads t = t)
    as Hkeep.
  { intros t Ht. apply filter_bool_all. exact Ht. }
  unfold decodes.
  destruct (placement_cases json_loads store_accepts custom_field_name
              max_iterations make_changes replace_empty_string_with_null c)
    as [(t & v & Hfix & Hp) | [(t & v & Hfix & _ & Hp)
       | [(t & v & Hfix & _ & Hp) | (t & e & Hfix & Hp)]]];
    rewrite Hp; rewrite Hfix in Hloads |- *; cbn [trace fst] in *;
    rewrite ?filter_app, Hkeep by done; [done | done | | done].
  by rewrite app_nil_r.
Qed.





(** The targets of the writes of a pass in apply mode. *)
Lemma placement_targets c b :
  result (place true replace_empty_string_with_null c) = Returns b →
  accepted_targets (trace (place true replace_empty_string_with_null c))
  = (if b then [c] else [])
  ∧ sublist
      (rejected_targets (trace (place true replace_empty_string_with_null c)))
      (if b then [] else [c])
  ∧ (length (writes (place true replace_empty_string_with_null c))
     = length (accepted_targets
                 (trace (place true replace_empty_string_with_null c)))
       + length (rejected_targets
                   (trace (place true replace_empty_string_with_null c))))%nat.
Proof.
  pose proof (compute_fix_outcome json_loads custom_field_name max_iterations
                replace_empty_string_with_null c) as [Hloads _].
  assert (∀ t, Forall (λ ev, is_Loads ev = true) t →
               accepted_targets t = [] ∧ rejected_targets t = []
               ∧ filter is_Update t = []) as Hnone.
  { induction 1 as [| ev t Hev _ (IH1 & IH2 & IH3)]; [done |].
    destruct ev as [data |]; [| done].
    change (accepted_targets (Loads data :: t)) with (accepted_targets t).
    change (rejected_targets (Loads data :: t)) with (rejected_targets t).
    by rewrite filter_cons_False by auto. }
  unfold writes.
  destruct (placement_cases json_loads store_accepts custom_field_name
              max_iterations true replace_empty_string_with_null c)
    as [(t & v & Hfix & Hp) | [(t & v & Hfix & [=] & Hp)
       | [(t & v & Hfix & _ & Hp) | (t & e & Hfix & Hp)]]];
    rewrite Hp; rewrite Hfix in Hloads; cbn [trace result fst snd] in *;
    intros [= <-]; destruct (Hnone t Hloads) as (Ha & Hr & Hw).
  - rewrite Ha, Hr, Hw. split; [done |]. split; [apply sublist_nil_l | done].
  - unfold accepted_targets, rejected_targets in *.
    rewrite !omap_app, filter_app, Ha, Hr, Hw.
    destruct (store_accepts c custom_field_name v); cbn;
      (split; [done |]); (split; [| done]); [apply sublist_nil_l | done].
Qed.
End Modes.

(** ** The repair workflow over whole record sets *)

Section RunAlgebra.
Variable json_loads : string → outcome value.
Variable store_accepts : NbObj → string → value → bool.
Variable custom_field_name : string.
Variable max_iterations : Z.
Variable make_changes : bool.
Variable expected_types : list pytype.
Variable replace_empty_string_with_null : bool.

Local Abbreviation place :=
  (placement json_loads store_accepts custom_field_name max_iterations
     make_changes replace_empty_string_with_null).
Local Abbreviation calls :=
  (calls_of json_loads store_accepts custom_field_name max_iterations
     make_changes replace_empty_string_with_null).
Local Abbreviation to_updated :=
  (placed_updated json_loads store_accepts custom_field_name max_iterations
     make_changes replace_empty_string_with_null).
Local Abbreviation to_not_updated :=
  (placed_not_updated json_loads store_accepts custom_field_name max_iterations
     make_changes replace_empty_string_with_null).
Local Abbreviation run :=
  (fix_netbox_json_field json_loads store_accepts custom_field_name
     max_iterations make_changes expected_types
     replace_empty_string_with_null).
Local Abbreviation cands := (candidates custom_field_name expected_types).

(** The run, by its passes: all return, or one is the first to raise. *)
Lemma run_cases recordset :
  (Forall (λ c, returns (place c) = true) (cands recordset)
   ∧ run recordset
     = (calls (cands recordset),
        Returns (filter to_updated (cands recordset),
                 filter to_not_updated (cands recordset))))
  ∨ ∃ before c e after,
      cands recordset = before ++ c :: after
      ∧ Forall (λ c, returns (place c) = true) before
      ∧ result (place c) = Raises e
      ∧ run recordset = (calls before ++ trace (place c), Raises e).
Proof.
  destruct (passes_return_or_raise json_loads store_accepts custom_field_name
              max_iterations make_changes replace_empty_string_with_null
              (cands recordset))
    as [Hall | (before & c & e & after & Hsplit & Hall & Hc)].
  - left. split; [done |]. by apply run_returns.
  - right. exists before, c, e, after. repeat split; [done.. |].
    rewrite run_unfold, Hsplit.
    apply (repair_loop_raises _ _ _ _ _ _ _ _ _ _ [] [] Hall Hc).
Qed.

(** Every call of a run, returned or aborted. *)
Lemma run_events recordset :
  Forall (λ ev, is_Loads ev = true
                ∨ ∃ c v, c ∈ cands recordset
                         ∧ ev = Update c custom_field_name v
                                  (store_accepts c custom_field_name v)
                         ∧ make_changes = true
                         ∧ result (compute_fix json_loads custom_field_name
                                     max_iterations
                                     replace_empty_string_with_null c)
                           = Returns (true, v))
    (trace (run recordset)).
Proof.
  destruct (run_cases recordset)
    as [[_ ->] | (before & c & e & after & Hsplit & _ & Hc & ->)].
  - apply calls_of_events.
  - cbn [trace fst]. apply Forall_app. split.
    + eapply Forall_impl; [apply calls_of_events |].
      intros ev [Hl | (c' & v & Hin & Hrest)]; [by left |].
      right. exists c', v. split; [| done].
      rewrite Hsplit. apply elem_of_app. by left.
    + apply placement_raises_inv in Hc as (_ & Hloads & _).
      eapply Forall_impl; [exact Hloads |]. by left.
Qed.
End RunAlgebra.

Section RunExtras.
Variable json_loads : string → outcome value.
Variable store_accepts : NbObj → string → value → bool.
Variable custom_field_name : string.
Variable max_iterations : Z.
Variable make_changes : bool.
Variable expected_types : list pytype.
Variable replace_empty_string_with_null : bool.

Local Abbreviation place :=
  (placement json_loads store_accepts custom_field_name max_iterations
     make_changes replace_empty_string_with_null).
Local Abbreviation calls :=
  (calls_of json_loads store_accepts custom_field_name max_iterations
     make_changes replace_empty_string_with_null).
Local Abbreviation run :=
  (fix_netbox_json_field json_loads store_accepts custom_field_name
     max_iterations make_changes expected_types
     replace_empty_string_with_null).
Local Abbreviation cands := (candidates custom_field_name expected_types).

(** X6. A record set without candidates is left alone, in either mode:
    when every record lacks the field or holds [None] or a value of an
    expected type (in particular when the record set is empty), the run
    calls neither [json.loads] nor [Record.update] and returns two empty
    lists. *)
Theorem clean_record_set_is_left_alone recordset :
  let repair := fix_netbox_json_field json_loads store_accepts custom_field_name
                  max_iterations make_changes expected_types
                  replace_empty_string_with_null in
  Forall (λ nbobj, well_typed expected_types
                     (get_custom_field custom_field_name nbobj) = true)
    recordset →
  repair recordset = ([], Returns ([], [])).
Proof.
  intros repair. subst repair.
  intros Hclean. rewrite run_unfold.
  by rewrite (candidates_none _ _ _ Hclean).
Qed.

(** X7. A run over two record sets in a row is the run over the first
    followed by the run over the second: the calls and the two lists are
    concatenated; an exception out of the second part keeps the calls of
    the first; an exception out of the first part ends the run before the
    second part is looked at. *)
Theorem run_of_concatenation rs1 rs2 :
  let repair := fix_netbox_json_field json_loads store_accepts custom_field_name
                  max_iterations make_changes expected_types
                  replace_empty_string_with_null in
  repair (rs1 ++ rs2)
  = match repair rs1 with
    | (calls1, Returns (updated1, not_updated1)) =>
        match repair rs2 with
        | (calls2, Returns (updated2, not_updated2)) =>
            (calls1 ++ calls2,
             Returns (updated1 ++ updated2, not_updated1 ++ not_updated2))
        | (calls2, Raises e) => (calls1 ++ calls2, Raises e)
        end
    | (calls1, Raises e) => (calls1, Raises e)
    end.
Proof.
  intros repair. subst repair.
  destruct (run_cases json_loads store_accepts custom_field_name
              max_iterations make_changes expected_types
              replace_empty_string_with_null rs1)
    as [[Hall1 ->] | (before & c & e & after & Hsplit & Hall & Hc & ->)].
  - destruct (run_cases json_loads store_accepts custom_field_name
              max_iterations make_changes expected_types
              replace_empty_string_with_null rs2)
      as [[Hall2 ->] | (before & c & e & after & Hsplit & Hall & Hc & ->)].
    + rewrite run_returns
        by (rewrite candidates_app; apply Forall_app; by split).
      by rewrite candidates_app, calls_of_app, !filter_app.
    + rewrite run_unfold, candidates_app, Hsplit, app_assoc.
      rewrite (repair_loop_raises json_loads store_accepts custom_field_name
                 max_iterations make_changes replace_empty_string_with_null
                 (cands rs1 ++ before) c e after [] []);
        [| by apply Forall_app | done].
      by rewrite calls_of_app, app_assoc.
  - rewrite run_unfold, candidates_app, Hsplit, <- app_assoc, <- app_comm_cons.
    by rewrite (repair_loop_raises _ _ _ _ _ _ _ _ _ _ [] [] Hall Hc).
Qed.

(** X8. Every call of [Record.update] that a run makes, whether the run
    returns or aborts, is made in apply mode, for a candidate of the record
    set, on the configured field, with the value of that candidate's
    successful fix, and that value is never a string. *)
Theorem writes_are_fixes recordset nbobj field v accepted :
  let repair := fix_netbox_json_field json_loads store_accepts custom_field_name
                  max_iterations make_changes expected_types
                  replace_empty_string_with_null in
  Update nbobj field v accepted ∈ trace (repair recordset) →
  make_changes = true
  ∧ field = custom_field_name
  ∧ nbobj ∈ candidates custom_field_name expected_types recordset
  ∧ result (compute_fix json_loads custom_field_name max_iterations
              replace_empty_string_with_null nbobj) = Returns (true, v)
  ∧ isinstance v [TStr] = false
  ∧ accepted = store_accepts nbobj custom_field_name v.
Proof.
  intros repair. subst repair.
  intros Hin.
  pose proof (run_events json_loads store_accepts custom_field_name
                max_iterations make_changes expected_types
                replace_empty_string_with_null recordset) as Hevents.
  rewrite Forall_forall in Hevents.
  destruct (Hevents _ Hin) as [Hl | (c & v' & Hc & [= -> -> -> ->] & Hmode & Hfix)];
    [done |].
  pose proof (compute_fix_outcome json_loads custom_field_name max_iterations
                replace_empty_string_with_null c) as [_ Hvalue].
  rewrite Hfix in Hvalue. done.
Qed.

(** X11. With a bound that is zero or negative and without the
    replacement of empty strings, the run decodes nothing, writes nothing
    and returns every candidate as not updated, also the candidates that
    hold no text. *)
Theorem run_without_budget recordset :
  let repair := fix_netbox_json_field json_loads store_accepts custom_field_name
                  max_iterations make_changes expected_types
                  replace_empty_string_with_null in
  max_iterations ≤ 0 →
  replace_empty_string_with_null = false →
  repair recordset
  = ([], Returns ([], candidates custom_field_name expected_types recordset)).
Proof.
  intros repair. subst repair.
  intros Hmax Hflag.
  assert (∀ c, place c = ([], Returns false)) as Hplace.
  { intros c. eapply placement_failed. unfold compute_fix.
    rewrite Hflag, andb_false_r. unfold unwrap_actual_json.
    by replace (Z.to_nat max_iterations) with 0%nat by lia. }
  rewrite run_returns
    by (apply Forall_forall; intros c _; unfold returns; by rewrite Hplace).
  f_equal; [| f_equal; f_equal].
  - unfold calls_of. induction (cands recordset) as [| c l IH]; [done |].
    rewrite fmap_cons. cbn [concat]. by rewrite Hplace, IH.
  - apply filter_bool_none, Forall_forall. intros c _.
    unfold placed_updated. by rewrite Hplace.
  - apply filter_bool_all, Forall_forall. intros c _.
    unfold placed_not_updated. by rewrite Hplace.
Qed.

(** X13. The records that the first loop skips have no influence: the run
    over a record set is the run over its candidates alone. *)
Theorem run_depends_on_candidates recordset :
  let repair := fix_netbox_json_field json_loads store_accepts custom_field_name
                  max_iterations make_changes expected_types
                  replace_empty_string_with_null in
  repair recordset
  = repair (candidates custom_field_name expected_types recordset).
Proof.
  intros repair. subst repair. by rewrite !run_unfold, candidates_idemp. Qed.

(** The work of the passes over a list. *)
Lemma calls_of_work l :
  (length (filter is_Loads (calls l)) ≤ length l * Z.to_nat max_iterations)%nat
  ∧ (length (filter is_Update (calls l)) ≤ length l)%nat.
Proof.
  induction l as [| c l [IHd IHw]]; [done |].
  rewrite calls_of_cons, !filter_app, !length_app.
  pose proof (placement_decodes json_loads store_accepts custom_field_name
                max_iterations replace_empty_string_with_null make_changes c)
    as Hd.
  unfold decodes in Hd. rewrite Hd.
  assert (length (trace (compute_fix json_loads custom_field_name
                           max_iterations replace_empty_string_with_null c))
          ≤ Z.to_nat max_iterations)%nat as Hfix.
  { unfold compute_fix.
    destruct (_ && _); [cbn; lia |]. unfold unwrap_actual_json.
    apply unwrap_loop_outcome. }
  assert (length (filter is_Update (trace (place c))) ≤ 1)%nat as Hw.
  { pose proof (compute_fix_outcome json_loads custom_field_name
                  max_iterations replace_empty_string_with_null c)
      as [Hloads _].
    assert (∀ t, Forall (λ ev, is_Loads ev = true) t → filter is_Update t = [])
      as Hnone.
    { intros t Ht. apply filter_bool_none.
      eapply Forall_impl; [exact Ht |]. by intros []. }
    destruct (placement_cases json_loads store_accepts custom_field_name
                max_iterations make_changes replace_empty_string_with_null c)
      as [(t & v & Hf & Hp) | [(t & v & Hf & _ & Hp)
         | [(t & v & Hf & _ & Hp) | (t & e & Hf & Hp)]]];
      rewrite Hp; rewrite Hf in Hloads; cbn [trace fst] in *;
      rewrite ?filter_app, Hnone by done; cbn; try case_decide; cbn; lia. }
  cbn [length]. split; lia.
Qed.

(** X12. The work of a run is bounded by its candidates: at most
    [max_iterations] calls of [json.loads] for each, and at most one call
    of [Record.update] for each, whether the run returns or aborts. *)
Theorem run_work_bound recordset :
  let repair := fix_netbox_json_field json_loads store_accepts custom_field_name
                  max_iterations make_changes expected_types
                  replace_empty_string_with_null in
  (length (decodes (repair recordset))
   ≤ length (candidates custom_field_name expected_types recordset)
     * Z.to_nat max_iterations)%nat
  ∧ (length (writes (repair recordset))
     ≤ length (candidates custom_field_name expected_types recordset))%nat.
Proof.
  intros repair. subst repair.
  unfold decodes, writes.
  destruct (run_cases json_loads store_accepts custom_field_name
              max_iterations make_changes expected_types
              replace_empty_string_with_null recordset)
    as [[_ ->] | (before & c & e & after & Hsplit & _ & _ & ->)];
    cbn [trace fst].
  - apply calls_of_work.
  - replace (calls before ++ trace (place c)) with (calls (before ++ [c]))
      by (rewrite calls_of_app, calls_of_cons; cbn; by rewrite app_nil_r).
    destruct (calls_of_work (before ++ [c])) as [Hd Hw].
    rewrite Hsplit. rewrite length_app in *. cbn [length] in *. split; nia.
Qed.
End RunExtras.

(** ** Apply mode and dry run *)

Section ModeExtras.
Variable json_loads : string → outcome value.
Variable store_accepts : NbObj → string → value → bool.
Variable custom_field_name : string.
Variable max_iterations : Z.
Variable expected_types : list pytype.
Variable replace_empty_string_with_null : bool.

Local Abbreviation fix_of :=
  (compute_fix json_loads custom_field_name max_iterations
     replace_empty_string_with_null).
Local Abbreviation place :=
  (placement json_loads store_accepts custom_field_name max_iterations).
Local Abbreviation calls :=
  (calls_of json_loads store_accepts custom_field_name max_iterations).
Local Abbreviation run :=
  (fix_netbox_json_field json_loads store_accepts custom_field_name
     max_iterations).
Local Abbreviation cands := (candidates custom_field_name expected_types).



(** The writes of the passes over a list, in apply mode. *)
Lemma calls_of_targets l :
  Forall (λ c, returns (place true replace_empty_string_with_null c) = true) l →
  accepted_targets (calls true replace_empty_string_with_null l)
  = filter (placed_updated json_loads store_accepts custom_field_name
              max_iterations true replace_empty_string_with_null) l
  ∧ sublist (rejected_targets (calls true replace_empty_string_with_null l))
      (filter (placed_not_updated json_loads store_accepts custom_field_name
                 max_iterations true replace_empty_string_with_null) l)
  ∧ (length (filter is_Update (calls true replace_empty_string_with_null l))
     = length (accepted_targets (calls true replace_empty_string_with_null l))
       + length (rejected_targets
                   (calls true replace_empty_string_with_null l)))%nat.
Proof.
  induction 1 as [| c l Hc _ (IHa & IHr & IHw)]; [done |].
  unfold returns in Hc.
  destruct (result (place true replace_empty_string_with_null c))
    as [b |] eqn:Hres; [| done].
  destruct (placement_targets json_loads store_accepts custom_field_name
              max_iterations replace_empty_string_with_null c b Hres)
    as (Ha & Hr & Hw).
  unfold writes in Hw.
  rewrite calls_of_cons. unfold accepted_targets, rejected_targets in *.
  rewrite !omap_app, filter_app, !length_app, Hw, IHw, IHa, Ha.
  split; [| split; [| lia]].
  - destruct b.
    + rewrite filter_cons_True by (unfold placed_updated; by rewrite Hres).
      done.
    + rewrite filter_cons_False
        by (unfold placed_updated; rewrite Hres; auto).
      done.
  - destruct b.
    + rewrite filter_cons_False
        by (unfold placed_not_updated; rewrite Hres; auto).
      apply sublist_nil_r in Hr. by rewrite Hr.
    + rewrite filter_cons_True by (unfold placed_not_updated; by rewrite Hres).
      by apply (sublist_app _ [c]).
Qed.

(** X9. In apply mode the list of updated objects that a run returns is
    the list of the objects whose write the store accepted, in the order
    of the writes; the objects whose write it rejected are among the not
    updated ones; and every call of [Record.update] was one or the other. *)
Theorem updated_are_the_accepted_writes recordset nbobj_updated nbobj_not_updated :
  let applied := fix_netbox_json_field json_loads store_accepts custom_field_name
             max_iterations true expected_types replace_empty_string_with_null
             recordset in
  result applied = Returns (nbobj_updated, nbobj_not_updated) →
  nbobj_updated = accepted_targets (trace applied)
  ∧ sublist (rejected_targets (trace applied)) nbobj_not_updated
  ∧ (length (writes applied)
     = length nbobj_updated + length (rejected_targets (trace applied)))%nat.
Proof.
  intros applied. subst applied.
  intros (Hall & -> & -> & Htrace)%run_returns_inv.
  unfold writes. rewrite Htrace.
  destruct (calls_of_targets _ Hall) as (Ha & Hr & Hw).
  rewrite Hw. by rewrite <- Ha.
Qed.

End ModeExtras.

(** ** The command line *)

Section CommandLineExtras.
Local Open Scope Z_scope.
Variable json_loads : string → outcome value.
Variable store_accepts : NbObj → string → value → bool.
Variable str : NbObj → string.

(** X14. Without [--verbose], a repair that returns is followed by two
    lines, the count of updated and the count of not updated objects, and
    the two counts add up to the number of candidates. *)
Theorem main_prints_counts args recordset objects_updated objects_not_updated :
  args_verbose args = false →
  result (fix_netbox_json_field json_loads store_accepts (args_field_name args)
            (args_max_iterations args) (args_make_changes args)
            default_expected_types (args_replace_empty_string_with_null args)
            recordset)
  = Returns (objects_updated, objects_not_updated) →
  snd (main json_loads store_accepts str args recordset)
  = (["Object Count Updated: " +:+ pretty (length objects_updated);
      "Objects Count Not Updated: " +:+ pretty (length objects_not_updated)],
     Done)
  ∧ (length objects_updated + length objects_not_updated
     = length (candidates (args_field_name args) default_expected_types
                 recordset))%nat.
Proof.
  intros Hquiet Hrun. split.
  - unfold main.
    destruct (fix_netbox_json_field _ _ _ _ _ _ _ _) as [t o].
    cbn in Hrun. subst o. cbn. unfold report. by rewrite Hquiet.
  - apply run_returns_inv in Hrun as (Hall & -> & -> & _).
    apply splits_length, splits_filter.
    eapply Forall_impl; [exact Hall |].
    intros c Hc. unfold placed_updated, placed_not_updated, returns in *.
    by destruct (result _) as [[] |].
Qed.

(** X15. With [--verbose], a repair that returns with an object left not
    updated is followed by no output at all: line 161 raises [NameError]
    on the name [item] before the first line is printed.  The two listings
    are printed only when every candidate was updated, and the second one
    is then empty. *)
Theorem main_verbose_listing args recordset objects_updated objects_not_updated :
  args_verbose args = true →
  result (fix_netbox_json_field json_loads store_accepts (args_field_name args)
            (args_max_iterations args) (args_make_changes args)
            default_expected_types (args_replace_empty_string_with_null args)
            recordset)
  = Returns (objects_updated, objects_not_updated) →
  (objects_not_updated ≠ [] →
   snd (main json_loads store_accepts str args recordset)
   = ([], Uncaught (NameError "item")))
  ∧ (objects_not_updated = [] →
     snd (main json_loads store_accepts str args recordset)
     = (["Objects Updated:" +:+ newline_indent
         +:+ join newline_indent (str <$> objects_updated);
         "Objects Not Updated:" +:+ newline_indent],
        Done)).
Proof.
  intros Hverbose Hrun. unfold main.
  destruct (fix_netbox_json_field _ _ _ _ _ _ _ _) as [t o].
  cbn in Hrun. subst o. cbn [snd]. unfold report. rewrite Hverbose.
  destruct objects_not_updated as [| ite rest]; split; done.
Qed.

End CommandLineExtras.

(** ** The further properties, run *)

Section ExtraWitnesses.
Local Open Scope string_scope.
Local Open Scope Z_scope.

Lemma clean_record_set_is_left_alone_witness :
  fix_netbox_json_field JsonText.loads Sample.accept_all "data" 10 true
    default_expected_types true
    [Sample.nbobj 2 (VDict ∅); Sample.nbobj 3 VNone; mkNbObj 4 ∅;
     Sample.nbobj 9 (VList [VStr "a"])]
  = ([], Returns ([], [])).
Proof.
  apply (clean_record_set_is_left_alone JsonText.loads Sample.accept_all "data"
           10 true default_expected_types true).
  repeat constructor.
Defined.

Lemma writes_are_fixes_witness :
  result (compute_fix JsonText.loads "data" 10 true
            (Sample.nbobj 8 (VStr (Sample.dumps_str (Sample.dumps_str "[]")))))
  = Returns (true, VList []).
Proof.
  eapply (writes_are_fixes JsonText.loads Sample.accept_all "data" 10 true
            default_expected_types true Sample.recordset
            (Sample.nbobj 8 (VStr (Sample.dumps_str (Sample.dumps_str "[]"))))
            "data" (VList []) true).
  apply list_elem_of_In. vm_compute. tauto.
Defined.

Lemma run_without_budget_witness :
  fix_netbox_json_field JsonText.loads Sample.accept_all "data" 0 true
    default_expected_types false
    [Sample.nbobj 1 (VStr "{}"); Sample.nbobj 2 (VDict ∅);
     Sample.nbobj 3 (VNum (NInt 5))]
  = ([], Returns ([], [Sample.nbobj 1 (VStr "{}");
                       Sample.nbobj 3 (VNum (NInt 5))])).
Proof.
  apply (run_without_budget JsonText.loads Sample.accept_all "data" 0 true
           default_expected_types false
           [Sample.nbobj 1 (VStr "{}"); Sample.nbobj 2 (VDict ∅);
            Sample.nbobj 3 (VNum (NInt 5))]);
    [lia | reflexivity].
Defined.

Lemma updated_are_the_accepted_writes_witness :
  let run := fix_netbox_json_field JsonText.loads
               (λ nbobj _ _, negb (obj_id nbobj =? 6)%nat) "data" 10 true
               default_expected_types true Sample.recordset in
  accepted_targets (trace run)
  = [Sample.nbobj 1 (VStr "{}"); Sample.nbobj 5 (VStr "5");
     Sample.nbobj 8 (VStr (Sample.dumps_str (Sample.dumps_str "[]")))]
  ∧ rejected_targets (trace run) = [Sample.nbobj 6 (VStr EmptyString)].
Proof.
  intros run. split; [| vm_compute; reflexivity]. symmetry.
  eapply (updated_are_the_accepted_writes JsonText.loads
            (λ nbobj _ _, negb (obj_id nbobj =? 6)%nat) "data" 10
            default_expected_types true Sample.recordset).
  vm_compute. reflexivity.
Defined.

Lemma main_prints_counts_witness :
  snd (main JsonText.loads Sample.accept_all (λ nbobj, pretty (obj_id nbobj))
         (mkArgs "data" false false 10 false) Sample.recordset)
  = (["Object Count Updated: 3"; "Objects Count Not Updated: 2"], Done).
Proof.
  eapply (main_prints_counts JsonText.loads Sample.accept_all
            (λ nbobj, pretty (obj_id nbobj))
            (mkArgs "data" false false 10 false) Sample.recordset
            [Sample.nbobj 1 (VStr "{}"); Sample.nbobj 5 (VStr "5");
             Sample.nbobj 8 (VStr (Sample.dumps_str (Sample.dumps_str "[]")))]
            [Sample.nbobj 6 (VStr EmptyString);
             Sample.nbobj 7 (VStr "not json at all")]);
    [reflexivity | vm_compute; reflexivity].
Defined.

Lemma main_verbose_listing_witness :
  snd (main JsonText.loads Sample.accept_all (λ nbobj, pretty (obj_id nbobj))
         (mkArgs "data" true false 10 false) Sample.recordset)
  = ([], Uncaught (NameError "item")).
Proof.
  eapply (main_verbose_listing JsonText.loads Sample.accept_all
            (λ nbobj, pretty (obj_id nbobj))
            (mkArgs "data" true false 10 false) Sample.recordset
            [Sample.nbobj 1 (VStr "{}"); Sample.nbobj 5 (VStr "5");
             Sample.nbobj 8 (VStr (Sample.dumps_str (Sample.dumps_str "[]")))]
            [Sample.nbobj 6 (VStr EmptyString);
             Sample.nbobj 7 (VStr "not json at all")]);
    [reflexivity | vm_compute; reflexivity | discriminate].
Defined.


(** An integer literal of 4301 digits: [json.loads] raises [ValueError],
    which nothing catches, in the unwrapper, in the repair and in the
    script. *)
Example scenario_long_integer :
  JsonText.loads (ones 4300) ≠ Raises ValueError
  ∧ unwrap_actual_json JsonText.loads (VStr (ones 4301)) None 10
    = ([Loads (VStr (ones 4301))], Raises ValueError)
  ∧ result (fix_netbox_json_field JsonText.loads Sample.accept_all "data" 10
              false default_expected_types false
              [Sample.nbobj 1 (VStr (ones 4301)); Sample.nbobj 2 (VStr "{}")])
    = Raises ValueError
  ∧ snd (main JsonText.loads Sample.accept_all (λ nbobj, pretty (obj_id nbobj))
           (mkArgs "data" false true 10 false)
           [Sample.nbobj 1 (VStr (ones 4301)); Sample.nbobj 2 (VBool true)])
    = ([], Uncaught (RepairError ValueError)).
Proof.
  split; [by vm_compute |]. split; [by vm_compute |].
  split; by vm_compute.
Qed.

(** The verbose listing of a record set that is repaired in full. *)
Example scenario_verbose_listing :
  snd (main JsonText.loads Sample.accept_all (λ nbobj, pretty (obj_id nbobj))
         (mkArgs "data" true true 10 false)
         [Sample.nbobj 1 (VStr "{}"); Sample.nbobj 5 (VStr "5")])
  = (["Objects Updated:" +:+ newline_indent +:+ "1" +:+ newline_indent +:+ "5";
      "Objects Not Updated:" +:+ newline_indent], Done).
Proof. vm_compute. reflexivity. Qed.
End ExtraWitnesses.
